(** * osbuild/images: partition customizations and partitioning mode

    A shallow embedding of [pkg/blueprint/partitioning_customizations.go]
    (the variant-tagged decoder of partition customizations, with its JSON
    and TOML entry points) and of the parts of [pkg/disk] that the disk
    tests exercise (partitioning-mode resolution and feature inspection).

    Conventions.
    - A JSON text is represented by its syntax tree; objects keep the order
      and the duplicates of their members, both of which Go's decoder can
      observe.  Syntax errors are outside the model.
    - A Go [any] is a closed universe of the dynamic values that the JSON and
      TOML decoders produce (TOML date-times, which the encoder writes as
      strings, are left out; a slice is never nil).  A [map[string]any] is
      an association list; Go maps have distinct keys, which theorems
      assume where it matters.
    - A method with a pointer receiver takes the receiver's value and returns
      the updated value together with the error ([None] for [nil]).
    - [uint64] values are [N]; no arithmetic is performed on them here. *)

From Stdlib Require Import String Ascii List NArith ZArith Bool Lia.
From Stdlib Require Import Permutation DecimalString.
Import ListNotations.
Local Open Scope string_scope.
Local Open Scope list_scope.
Set Warnings "-register-all".

(** ** Errors *)

(** The errors of [encoding/json], of [decodeSize] and the ones the decoder
    builds with [fmt.Errorf].  [Wrap p e] is [fmt.Errorf("%s %w", p, e)]. *)
Inductive error : Type :=
| UnmarshalTypeError (value : string) (target : string)
| UnknownField (key : string)
| UnsupportedValue (what : string)
| SizeError (msg : string)
| Wrap (prefix : string) (e : error)
| VariantError (variant : string) (e : error)
| MinSizeError (prefix : string) (e : error)
| MarshalError (prefix : string) (e : error)
| UnknownPartitionType (prefix : string) (partType : string)
| NotAnObject (prefix : string)
| TypeNotString (prefix : string) (goType : string).

Inductive result (A : Type) : Type :=
| Ok (a : A)
| Err (e : error).
Arguments Ok {A} a.
Arguments Err {A} e.

Definition isErr {A} (r : result A) : bool :=
  match r with Ok _ => false | Err _ => true end.

(** ** Go values *)

(** The float64 values and their conversions from and to JSON number
    literals ([strconv.ParseFloat] as used by the decoder, and the encoder's
    float formatting, which rejects NaN and the infinities). *)
Class GoFloat : Type := {
  float64 : Type;
  parseFloat : string -> option float64;
  formatFloat : float64 -> option string
}.

Module Json.
Section Values.
Context `{GoFloat}.

(** A JSON syntax tree.  A number carries its literal. *)
Inductive json : Type :=
| JNull
| JBool (b : bool)
| JNumber (lit : string)
| JString (s : string)
| JArray (l : list json)
| JObject (o : list (string * json)).

(** The dynamic values held by an [any]. *)
Inductive any : Type :=
| ANil
| ABool (b : bool)
| AInt64 (z : Z)
| AFloat64 (f : float64)
| AString (s : string)
| ASlice (l : list any)
| AMap (m : list (string * any)).

(** The name [%T] prints for a value. *)
Definition goType (a : any) : string :=
  match a with
  | ANil => "<nil>"
  | ABool _ => "bool"
  | AInt64 _ => "int64"
  | AFloat64 _ => "float64"
  | AString _ => "string"
  | ASlice _ => "[]interface {}"
  | AMap _ => "map[string]interface {}"
  end.

(** The description of a JSON value in an [UnmarshalTypeError]. *)
Definition kind (j : json) : string :=
  match j with
  | JNull => "null"
  | JBool _ => "bool"
  | JNumber _ => "number"
  | JString _ => "string"
  | JArray _ => "array"
  | JObject _ => "object"
  end.

(** [m[key]] with the comma-ok form. *)
Fixpoint lookup {A} (key : string) (m : list (string * A)) : option A :=
  match m with
  | [] => None
  | (k, a) :: m' => if String.eqb k key then Some a else lookup key m'
  end.

(** [m[key] = a]. *)
Fixpoint mapassign {A} (key : string) (a : A) (m : list (string * A))
  : list (string * A) :=
  match m with
  | [] => [(key, a)]
  | (k, b) :: m' =>
      if String.eqb k key then (k, a) :: m' else (k, b) :: mapassign key a m'
  end.

(** *** Field lookup *)

Definition upper (c : ascii) : ascii :=
  if (Ascii.leb "a" c && Ascii.leb c "z")%bool
  then ascii_of_nat (nat_of_ascii c - 32) else c.

(** [foldName]: ASCII letters are upper-cased, and the two runes outside
    ASCII whose fold class has an ASCII member, U+017F (bytes C5 BF) and
    U+212A (bytes E2 84 AA), go to S and K.  Every other rune folds to a
    rune outside ASCII and is left as it is: a folded key is only ever
    compared with the folded name of a struct field, which is ASCII. *)
Fixpoint foldName (s : string) : string :=
  match s with
  | EmptyString => EmptyString
  | String c s' =>
      match c, s' with
      | "197"%char, String "191"%char r => String "S"%char (foldName r)
      | "226"%char, String "132"%char (String "170"%char r) =>
          String "K"%char (foldName r)
      | _, _ => String (upper c) (foldName s')
      end
  end.

(** The struct field a key selects: the one with that exact name, else the
    first one with the same folded name. *)
Definition findField (names : list string) (key : string) : option string :=
  match find (String.eqb key) names with
  | Some n => Some n
  | None => find (fun n => String.eqb (foldName n) (foldName key)) names
  end.

(** No name of [rest] folds like a name of [names]. *)
Definition foldApart (names rest : list string) : bool :=
  forallb (fun n =>
             forallb (fun m => negb (String.eqb (foldName m) (foldName n))) names)
    rest.

(** *** Decoding into Go values *)

(** [d.saveError]: the first error is kept and decoding goes on. *)
Definition saveError (saved e : option error) : option error :=
  match saved with
  | Some _ => saved
  | None => e
  end.

Definition sequence {A} (l : list (result A)) : result (list A) :=
  fold_right (fun r acc =>
                match r, acc with
                | Err e, _ => Err e
                | Ok _, Err e => Err e
                | Ok a, Ok l' => Ok (a :: l')
                end) (Ok []) l.

Definition sequenceEntries {A} (l : list (string * result A))
  : result (list (string * A)) :=
  fold_right (fun kr acc =>
                match snd kr, acc with
                | Err e, _ => Err e
                | Ok _, Err e => Err e
                | Ok a, Ok l' => Ok ((fst kr, a) :: l')
                end) (Ok []) l.

(** Decoding into an [any]: null is nil, a number is a float64, an object
    is a map in which a later member replaces an earlier one with the same
    key.  The first number that does not convert is the error. *)
Fixpoint toAny (j : json) : result any :=
  match j with
  | JNull => Ok ANil
  | JBool b => Ok (ABool b)
  | JNumber lit =>
      match parseFloat lit with
      | Some f => Ok (AFloat64 f)
      | None => Err (UnmarshalTypeError ("number " ++ lit) "float64")
      end
  | JString s => Ok (AString s)
  | JArray l =>
      match sequence (map toAny l) with
      | Ok l' => Ok (ASlice l')
      | Err e => Err e
      end
  | JObject o =>
      match sequenceEntries (map (fun kv => (fst kv, toAny (snd kv))) o) with
      | Ok m => Ok (AMap (fold_left (fun acc kv => mapassign (fst kv) (snd kv) acc) m []))
      | Err e => Err e
      end
  end.

(** A member decoder stores a JSON value into a struct: [Err] is an error
    returned at once (an [Unmarshaler] failed), [Ok (s, Some e)] an error
    saved while decoding goes on. *)
Definition store (S : Type) : Type := json -> S -> result (S * option error).

(** [d.object] on a struct: the members in order, each stored into the
    field its key selects; a key that selects none is skipped, or under
    [DisallowUnknownFields] saved as an error. *)
Fixpoint object {S} (strict : bool) (names : list string)
    (set : string -> store S) (o : list (string * json)) (s : S)
    (saved : option error) : result (S * option error) :=
  match o with
  | [] => Ok (s, saved)
  | (key, j) :: o' =>
      match findField names key with
      | Some f =>
          match set f j s with
          | Err e => Err e
          | Ok (s', e) => object strict names set o' s' (saveError saved e)
          end
      | None =>
          object strict names set o' s
            (if strict then saveError saved (Some (UnknownField key)) else saved)
      end
  end.

(** A struct value inside a larger document. *)
Definition structValue {S} (strict : bool) (names : list string)
    (set : string -> store S) (goName : string) : store S :=
  fun j s =>
    match j with
    | JObject o => object strict names set o s None
    | JNull => Ok (s, None)
    | _ => Ok (s, Some (UnmarshalTypeError (kind j) goName))
    end.

(** [json.Unmarshal(data, &s)] and [decoder.Decode(&s)] on a struct. *)
Definition unmarshalStruct {S} (strict : bool) (names : list string)
    (set : string -> store S) (goName : string) (data : json) (s : S)
  : result S :=
  match structValue strict names set goName data s with
  | Err e => Err e
  | Ok (_, Some e) => Err e
  | Ok (s', None) => Ok s'
  end.

(** [d.array] on a slice whose elements start from the zero value [zero]. *)
Fixpoint array {E} (elem : store E) (zero : E) (l : list json)
    (saved : option error) : result (list E * option error) :=
  match l with
  | [] => Ok ([], saved)
  | j :: l' =>
      match elem j zero with
      | Err e => Err e
      | Ok (x, e) =>
          match array elem zero l' (saveError saved e) with
          | Err e' => Err e'
          | Ok (xs, saved') => Ok (x :: xs, saved')
          end
      end
  end.

Definition storeSlice {E} (elem : store E) (zero : E) (goName : string)
  : store (list E) :=
  fun j old =>
    match j with
    | JArray l => array elem zero l None
    | JNull => Ok ([], None)
    | _ => Ok (old, Some (UnmarshalTypeError (kind j) goName))
    end.

Definition storeString (goName : string) : store string :=
  fun j old =>
    match j with
    | JString s => Ok (s, None)
    | JNull => Ok (old, None)
    | _ => Ok (old, Some (UnmarshalTypeError (kind j) goName))
    end.

Definition storeAny : store any :=
  fun j _ =>
    match toAny j with
    | Ok a => Ok (a, None)
    | Err e => Ok (ANil, Some e)
    end.

(** A decoding step ended with an error, returned or saved. *)
Definition failed {S} (r : result (S * option error)) : Prop :=
  match r with
  | Ok (_, None) => False
  | _ => True
  end.

(** *** Encoding Go values *)

Definition formatInt (z : Z) : string := NilZero.string_of_int (Z.to_int z).

Fixpoint insertByKey {A} (kv : string * A) (l : list (string * A))
  : list (string * A) :=
  match l with
  | [] => [kv]
  | kv' :: l' =>
      if String.leb (fst kv) (fst kv') then kv :: l
      else kv' :: insertByKey kv l'
  end.

(** The encoder writes the members of a map sorted by key. *)
Definition sortByKey {A} (l : list (string * A)) : list (string * A) :=
  fold_right insertByKey [] l.

(** [json.Marshal] on an [any]. *)
Fixpoint Marshal (a : any) : result json :=
  match a with
  | ANil => Ok JNull
  | ABool b => Ok (JBool b)
  | AInt64 z => Ok (JNumber (formatInt z))
  | AFloat64 f =>
      match formatFloat f with
      | Some lit => Ok (JNumber lit)
      | None => Err (UnsupportedValue "float64")
      end
  | AString s => Ok (JString s)
  | ASlice l =>
      match sequence (map Marshal l) with
      | Ok l' => Ok (JArray l')
      | Err e => Err e
      end
  | AMap m =>
      match sequenceEntries
              (sortByKey (map (fun kv => (fst kv, Marshal (snd kv))) m)) with
      | Ok o => Ok (JObject o)
      | Err e => Err e
      end
  end.

End Values.
End Json.

(** ** The blueprint package *)

(** [decodeSize] (declared in another file of the package) turns the value
    of a [minsize] member, an integer or a string with a unit, into a
    number of bytes. *)
Class SizeDecoder `{GoFloat} : Type := {
  decodeSize : Json.any -> result N
}.

Module Blueprint.
Import Json.

Record FilesystemTypedCustomization : Type := {
  Mountpoint : string;
  Label : string;
  FSType : string
}.

Record LVCustomization : Type := {
  lv_Name : string;
  lv_MinSize : N;
  lv_FilesystemTypedCustomization : FilesystemTypedCustomization
}.

Record VGCustomization : Type := {
  Name : string;
  LogicalVolumes : list LVCustomization
}.

Record BtrfsSubvolumeCustomization : Type := {
  sv_Name : string;
  sv_Mountpoint : string
}.

Record BtrfsVolumeCustomization : Type := {
  Subvolumes : list BtrfsSubvolumeCustomization
}.

Record PartitionCustomization : Type := {
  Type_ : string;
  MinSize : N;
  BtrfsVolume : BtrfsVolumeCustomization;
  VG : VGCustomization;
  FilesystemTyped : FilesystemTypedCustomization
}.

(** The zero values. *)
Definition zeroFS : FilesystemTypedCustomization :=
  {| Mountpoint := ""; Label := ""; FSType := "" |}.
Definition zeroLV : LVCustomization :=
  {| lv_Name := ""; lv_MinSize := 0%N; lv_FilesystemTypedCustomization := zeroFS |}.
Definition zeroVG : VGCustomization := {| Name := ""; LogicalVolumes := [] |}.
Definition zeroSubvolume : BtrfsSubvolumeCustomization :=
  {| sv_Name := ""; sv_Mountpoint := "" |}.
Definition zeroBtrfs : BtrfsVolumeCustomization := {| Subvolumes := [] |}.
Definition zeroPartition : PartitionCustomization :=
  {| Type_ := ""; MinSize := 0%N; BtrfsVolume := zeroBtrfs; VG := zeroVG;
     FilesystemTyped := zeroFS |}.

(** A plain partition for the root, nothing else set. *)
Definition rootPlain : PartitionCustomization :=
  {| Type_ := "plain"; MinSize := 0; BtrfsVolume := zeroBtrfs; VG := zeroVG;
     FilesystemTyped := {| Mountpoint := "/"; Label := ""; FSType := "" |} |}.

Section Decoders.
Context `{SizeDecoder}.

(** *** Fields of [FilesystemTypedCustomization], shared by embedding *)

Definition fsNames : list string := ["mountpoint"; "label"; "fs_type"].

Definition setFS (f : string) : store FilesystemTypedCustomization :=
  fun j fs =>
    if String.eqb f "mountpoint" then
      match storeString "string" j (Mountpoint fs) with
      | Ok (x, e) => Ok ({| Mountpoint := x; Label := Label fs; FSType := FSType fs |}, e)
      | Err e => Err e
      end
    else if String.eqb f "label" then
      match storeString "string" j (Label fs) with
      | Ok (x, e) => Ok ({| Mountpoint := Mountpoint fs; Label := x; FSType := FSType fs |}, e)
      | Err e => Err e
      end
    else
      match storeString "string" j (FSType fs) with
      | Ok (x, e) => Ok ({| Mountpoint := Mountpoint fs; Label := Label fs; FSType := x |}, e)
      | Err e => Err e
      end.

(** *** [LVCustomization.UnmarshalJSON] *)

(** The local [lvAnySize]. *)
Record lvAnySize : Type := {
  las_Name : string;
  las_MinSize : any;
  las_FilesystemTypedCustomization : FilesystemTypedCustomization
}.

Definition zeroLvAnySize : lvAnySize :=
  {| las_Name := ""; las_MinSize := ANil; las_FilesystemTypedCustomization := zeroFS |}.

Definition lvNames : list string := "name" :: "minsize" :: fsNames.

Definition setLvAnySize (f : string) : store lvAnySize :=
  fun j s =>
    if String.eqb f "name" then
      match storeString "string" j (las_Name s) with
      | Ok (x, e) =>
          Ok ({| las_Name := x; las_MinSize := las_MinSize s;
                 las_FilesystemTypedCustomization := las_FilesystemTypedCustomization s |}, e)
      | Err e => Err e
      end
    else if String.eqb f "minsize" then
      match storeAny j (las_MinSize s) with
      | Ok (x, e) =>
          Ok ({| las_Name := las_Name s; las_MinSize := x;
                 las_FilesystemTypedCustomization := las_FilesystemTypedCustomization s |}, e)
      | Err e => Err e
      end
    else
      match setFS f j (las_FilesystemTypedCustomization s) with
      | Ok (x, e) =>
          Ok ({| las_Name := las_Name s; las_MinSize := las_MinSize s;
                 las_FilesystemTypedCustomization := x |}, e)
      | Err e => Err e
      end.

Definition isNil (a : any) : bool :=
  match a with ANil => true | _ => false end.

Definition LVCustomization_UnmarshalJSON (lv : LVCustomization) (data : json)
  : LVCustomization * option error :=
  match unmarshalStruct false lvNames setLvAnySize "struct" data zeroLvAnySize with
  | Err err => (lv, Some err)
  | Ok las =>
      let lv := {| lv_Name := las_Name las; lv_MinSize := lv_MinSize lv;
                   lv_FilesystemTypedCustomization :=
                     las_FilesystemTypedCustomization las |} in
      if negb (isNil (las_MinSize las)) then
        match decodeSize (las_MinSize las) with
        | Err err => (lv, Some err)
        | Ok size =>
            ({| lv_Name := lv_Name lv; lv_MinSize := size;
                lv_FilesystemTypedCustomization :=
                  lv_FilesystemTypedCustomization lv |}, None)
        end
      else (lv, None)
  end.

(** An element of [[]LVCustomization]: the decoder hands every value,
    null included, to the type's own [UnmarshalJSON], and an error it
    returns ends the decoding. *)
Definition storeLV : store LVCustomization :=
  fun j lv =>
    match LVCustomization_UnmarshalJSON lv j with
    | (_, Some err) => Err err
    | (lv', None) => Ok (lv', None)
    end.

(** *** The three variant decoders *)

(** The local [plain] of [decodePlain]. *)
Record plainDoc : Type := {
  pd_Type : string;
  pd_MinSize : any;
  pd_FilesystemTypedCustomization : FilesystemTypedCustomization
}.

Definition zeroPlainDoc : plainDoc :=
  {| pd_Type := ""; pd_MinSize := ANil; pd_FilesystemTypedCustomization := zeroFS |}.

Definition plainNames : list string := "type" :: "minsize" :: fsNames.

Definition setPlainDoc (f : string) : store plainDoc :=
  fun j s =>
    if String.eqb f "type" then
      match storeString "string" j (pd_Type s) with
      | Ok (x, e) =>
          Ok ({| pd_Type := x; pd_MinSize := pd_MinSize s;
                 pd_FilesystemTypedCustomization := pd_FilesystemTypedCustomization s |}, e)
      | Err e => Err e
      end
    else if String.eqb f "minsize" then
      match storeAny j (pd_MinSize s) with
      | Ok (x, e) =>
          Ok ({| pd_Type := pd_Type s; pd_MinSize := x;
                 pd_FilesystemTypedCustomization := pd_FilesystemTypedCustomization s |}, e)
      | Err e => Err e
      end
    else
      match setFS f j (pd_FilesystemTypedCustomization s) with
      | Ok (x, e) =>
          Ok ({| pd_Type := pd_Type s; pd_MinSize := pd_MinSize s;
                 pd_FilesystemTypedCustomization := x |}, e)
      | Err e => Err e
      end.

Definition decodePlain (v : PartitionCustomization) (data : json)
  : PartitionCustomization * option error :=
  match unmarshalStruct true plainNames setPlainDoc "struct" data zeroPlainDoc with
  | Err err => (v, Some (VariantError "plain" err))
  | Ok plain =>
      ({| Type_ := Type_ v; MinSize := MinSize v; BtrfsVolume := BtrfsVolume v;
          VG := VG v;
          FilesystemTyped := pd_FilesystemTypedCustomization plain |}, None)
  end.

(** The local [btrfs] of [decodeBtrfs].  [Subvolumes] has no tag: its
    JSON name is the Go name. *)
Record btrfsDoc : Type := {
  bd_Type : string;
  bd_MinSize : any;
  bd_BtrfsVolumeCustomization : BtrfsVolumeCustomization
}.

Definition zeroBtrfsDoc : btrfsDoc :=
  {| bd_Type := ""; bd_MinSize := ANil; bd_BtrfsVolumeCustomization := zeroBtrfs |}.

Definition subvolumeNames : list string := ["name"; "mountpoint"].

Definition setSubvolume (f : string) : store BtrfsSubvolumeCustomization :=
  fun j sv =>
    if String.eqb f "name" then
      match storeString "string" j (sv_Name sv) with
      | Ok (x, e) => Ok ({| sv_Name := x; sv_Mountpoint := sv_Mountpoint sv |}, e)
      | Err e => Err e
      end
    else
      match storeString "string" j (sv_Mountpoint sv) with
      | Ok (x, e) => Ok ({| sv_Name := sv_Name sv; sv_Mountpoint := x |}, e)
      | Err e => Err e
      end.

Definition btrfsNames : list string := ["type"; "minsize"; "Subvolumes"].

Definition setBtrfsDoc (strict : bool) (f : string) : store btrfsDoc :=
  fun j s =>
    if String.eqb f "type" then
      match storeString "string" j (bd_Type s) with
      | Ok (x, e) =>
          Ok ({| bd_Type := x; bd_MinSize := bd_MinSize s;
                 bd_BtrfsVolumeCustomization := bd_BtrfsVolumeCustomization s |}, e)
      | Err e => Err e
      end
    else if String.eqb f "minsize" then
      match storeAny j (bd_MinSize s) with
      | Ok (x, e) =>
          Ok ({| bd_Type := bd_Type s; bd_MinSize := x;
                 bd_BtrfsVolumeCustomization := bd_BtrfsVolumeCustomization s |}, e)
      | Err e => Err e
      end
    else
      match storeSlice (structValue strict subvolumeNames setSubvolume "struct")
              zeroSubvolume "slice" j
              (Subvolumes (bd_BtrfsVolumeCustomization s)) with
      | Ok (x, e) =>
          Ok ({| bd_Type := bd_Type s; bd_MinSize := bd_MinSize s;
                 bd_BtrfsVolumeCustomization := {| Subvolumes := x |} |}, e)
      | Err e => Err e
      end.

Definition decodeBtrfs (v : PartitionCustomization) (data : json)
  : PartitionCustomization * option error :=
  match unmarshalStruct true btrfsNames (setBtrfsDoc true) "struct" data zeroBtrfsDoc with
  | Err err => (v, Some (VariantError "btrfs" err))
  | Ok btrfs =>
      ({| Type_ := Type_ v; MinSize := MinSize v;
          BtrfsVolume := bd_BtrfsVolumeCustomization btrfs;
          VG := VG v; FilesystemTyped := FilesystemTyped v |}, None)
  end.

(** The local [vg] of [decodeLVM]. *)
Record vgDoc : Type := {
  vd_Type : string;
  vd_MinSize : any;
  vd_VGCustomization : VGCustomization
}.

Definition zeroVgDoc : vgDoc :=
  {| vd_Type := ""; vd_MinSize := ANil; vd_VGCustomization := zeroVG |}.

Definition vgNames : list string := ["type"; "minsize"; "name"; "logical_volumes"].

Definition setVgDoc (f : string) : store vgDoc :=
  fun j s =>
    if String.eqb f "type" then
      match storeString "string" j (vd_Type s) with
      | Ok (x, e) =>
          Ok ({| vd_Type := x; vd_MinSize := vd_MinSize s;
                 vd_VGCustomization := vd_VGCustomization s |}, e)
      | Err e => Err e
      end
    else if String.eqb f "minsize" then
      match storeAny j (vd_MinSize s) with
      | Ok (x, e) =>
          Ok ({| vd_Type := vd_Type s; vd_MinSize := x;
                 vd_VGCustomization := vd_VGCustomization s |}, e)
      | Err e => Err e
      end
    else if String.eqb f "name" then
      match storeString "string" j (Name (vd_VGCustomization s)) with
      | Ok (x, e) =>
          Ok ({| vd_Type := vd_Type s; vd_MinSize := vd_MinSize s;
                 vd_VGCustomization :=
                   {| Name := x;
                      LogicalVolumes := LogicalVolumes (vd_VGCustomization s) |} |}, e)
      | Err e => Err e
      end
    else
      match storeSlice storeLV zeroLV "slice" j
              (LogicalVolumes (vd_VGCustomization s)) with
      | Ok (x, e) =>
          Ok ({| vd_Type := vd_Type s; vd_MinSize := vd_MinSize s;
                 vd_VGCustomization :=
                   {| Name := Name (vd_VGCustomization s); LogicalVolumes := x |} |}, e)
      | Err e => Err e
      end.

Definition decodeLVM (v : PartitionCustomization) (data : json)
  : PartitionCustomization * option error :=
  match unmarshalStruct true vgNames setVgDoc "struct" data zeroVgDoc with
  | Err err => (v, Some (VariantError "lvm" err))
  | Ok vg =>
      ({| Type_ := Type_ v; MinSize := MinSize v; BtrfsVolume := BtrfsVolume v;
          VG := vd_VGCustomization vg;
          FilesystemTyped := FilesystemTyped v |}, None)
  end.

(** *** [PartitionCustomization.UnmarshalJSON] *)

Record typeSniffer : Type := {
  ts_Type : string;
  ts_MinSize : any
}.

Definition zeroTypeSniffer : typeSniffer := {| ts_Type := ""; ts_MinSize := ANil |}.

Definition snifferNames : list string := ["type"; "minsize"].

Definition setTypeSniffer (f : string) : store typeSniffer :=
  fun j s =>
    if String.eqb f "type" then
      match storeString "string" j (ts_Type s) with
      | Ok (x, e) => Ok ({| ts_Type := x; ts_MinSize := ts_MinSize s |}, e)
      | Err e => Err e
      end
    else
      match storeAny j (ts_MinSize s) with
      | Ok (x, e) => Ok ({| ts_Type := ts_Type s; ts_MinSize := x |}, e)
      | Err e => Err e
      end.

Definition setType (v : PartitionCustomization) (t : string) : PartitionCustomization :=
  {| Type_ := t; MinSize := MinSize v; BtrfsVolume := BtrfsVolume v; VG := VG v;
     FilesystemTyped := FilesystemTyped v |}.

Definition setMinSize (v : PartitionCustomization) (n : N) : PartitionCustomization :=
  {| Type_ := Type_ v; MinSize := n; BtrfsVolume := BtrfsVolume v; VG := VG v;
     FilesystemTyped := FilesystemTyped v |}.

(** The [switch partType] that both entry points run on the JSON form of
    the document. *)
Definition switchPartType (errPrefix partType : string)
    (v : PartitionCustomization) (data : json)
  : PartitionCustomization * option error :=
  if String.eqb partType "plain" then
    match decodePlain v data with
    | (v', Some err) => (v', Some (Wrap errPrefix err))
    | (v', None) => (v', None)
    end
  else if String.eqb partType "btrfs" then
    match decodeBtrfs v data with
    | (v', Some err) => (v', Some (Wrap errPrefix err))
    | (v', None) => (v', None)
    end
  else if String.eqb partType "lvm" then
    match decodeLVM v data with
    | (v', Some err) => (v', Some (Wrap errPrefix err))
    | (v', None) => (v', None)
    end
  else (v, Some (UnknownPartitionType errPrefix partType)).

Definition UnmarshalJSON (v : PartitionCustomization) (data : json)
  : PartitionCustomization * option error :=
  let errPrefix := "JSON unmarshal:" in
  match unmarshalStruct false snifferNames setTypeSniffer "struct" data
          zeroTypeSniffer with
  | Err err => (v, Some (Wrap errPrefix err))
  | Ok sniffed =>
      let partType :=
        if negb (String.eqb (ts_Type sniffed) "") then ts_Type sniffed else "plain" in
      match switchPartType errPrefix partType v data with
      | (v, Some err) => (v, Some err)
      | (v, None) =>
          let v := setType v partType in
          if negb (isNil (ts_MinSize sniffed)) then
            match decodeSize (ts_MinSize sniffed) with
            | Err err => (v, Some (MinSizeError errPrefix err))
            | Ok minsize => (setMinSize v minsize, None)
            end
          else (v, None)
      end
  end.

(** *** [PartitionCustomization.UnmarshalTOML] *)

Definition UnmarshalTOML (v : PartitionCustomization) (data : any)
  : PartitionCustomization * option error :=
  let errPrefix := "TOML unmarshal:" in
  match data with
  | AMap d =>
      let typed :=
        match lookup "type" d with
        | Some (AString typeStr) => Ok typeStr
        | Some typeField => Err (TypeNotString errPrefix (goType typeField))
        | None => Ok "plain"
        end in
      match typed with
      | Err err => (v, Some err)
      | Ok partType =>
          match Marshal data with
          | Err err => (v, Some (MarshalError errPrefix err))
          | Ok dataJSON =>
              match switchPartType errPrefix partType v dataJSON with
              | (v, Some err) => (v, Some err)
              | (v, None) =>
                  let v := setType v partType in
                  match lookup "minsize" d with
                  | Some minsizeField =>
                      match decodeSize minsizeField with
                      | Err err => (v, Some (MinSizeError errPrefix err))
                      | Ok minsize => (setMinSize v minsize, None)
                      end
                  | None => (v, None)
                  end
              end
          end
      end
  | _ => (v, Some (NotAnObject errPrefix))
  end.

(** *** Vocabulary of the statements *)

(** The partition type the JSON entry point selects: the sniffed [type],
    or plain when it is empty. *)
Definition selectedTypeJSON (data : json) : option string :=
  match unmarshalStruct false snifferNames setTypeSniffer "struct" data
          zeroTypeSniffer with
  | Ok sniffed =>
      Some (if negb (String.eqb (ts_Type sniffed) "") then ts_Type sniffed
            else "plain")
  | Err _ => None
  end.

(** The partition type the TOML entry point selects: the string under the
    key [type], or plain when the key is absent. *)
Definition selectedTypeTOML (d : list (string * any)) : option string :=
  match lookup "type" d with
  | Some (AString typeStr) => Some typeStr
  | Some _ => None
  | None => Some "plain"
  end.

(** The member names the local struct of a variant decoder has. *)
Definition variantNames (partType : string) : list string :=
  if String.eqb partType "plain" then plainNames
  else if String.eqb partType "btrfs" then btrfsNames
  else if String.eqb partType "lvm" then vgNames
  else [].

Definition knownType (partType : string) : bool :=
  (String.eqb partType "plain" || String.eqb partType "btrfs"
   || String.eqb partType "lvm")%bool.

(** The error a member saves when it is stored into [type] or [minsize]. *)
Definition memberError (f : string) (j : json) : option error :=
  if String.eqb f "type" then
    match j with
    | JString _ | JNull => None
    | _ => Some (UnmarshalTypeError (kind j) "string")
    end
  else
    match toAny j with
    | Ok _ => None
    | Err e => Some e
    end.

(** Among these keys, one that is matched to the member [type] or
    [minsize] is that very name. *)
Definition exactKeys (keys : list string) : Prop :=
  forall key f, In key keys -> findField snifferNames key = Some f -> key = f.

(** Two runs end alike: both without error and with the same value, or
    both with an error. *)
Definition sameOutcome (a b : PartitionCustomization * option error) : Prop :=
  match snd a, snd b with
  | None, None => fst a = fst b
  | Some _, Some _ => True
  | _, _ => False
  end.

End Decoders.
End Blueprint.

(** ** The disk package *)

Module Disk.

Inductive PartitioningMode : Type :=
| DefaultPartitioningMode
| AutoLVMPartitioningMode
| LVMPartitioningMode
| RawPartitioningMode.

(** [blueprint.FilesystemCustomization], as the disk tests build it. *)
Record FilesystemCustomization : Type := {
  Mountpoint : string;
  MinSize : N
}.

(** Modelled from the spec: the mode resolution inside [NewPartitionTable]
    is missing; these are the steps of section 4.3.  [substituteDefault] is
    steps 1 to 3. *)
Definition substituteDefault (default_mode : option PartitioningMode)
    (requested_mode : PartitioningMode) : PartitioningMode :=
  let m := requested_mode in
  let m :=
    match m with
    | DefaultPartitioningMode =>
        match default_mode with
        | Some d => d
        | None => DefaultPartitioningMode
        end
    | _ => m
    end in
  match m with
  | DefaultPartitioningMode => AutoLVMPartitioningMode
  | _ => m
  end.

(** Modelled from the spec: the test of step 4 on one requested mountpoint,
    also missing: it is not the root and declares a positive minimum size. *)
Definition sizedNonRoot (mp : FilesystemCustomization) : bool :=
  (negb (String.eqb (Mountpoint mp) "/") && (0 <? MinSize mp)%N)%bool.

(** Modelled from the spec: step 4 of the missing resolver.  [Default]
    cannot reach it; it is listed with [AutoLVM]. *)
Definition resolve (default_mode : option PartitioningMode)
    (requested_mode : PartitioningMode)
    (mountpoints : list FilesystemCustomization) : bool :=
  match substituteDefault default_mode requested_mode with
  | RawPartitioningMode => false
  | LVMPartitioningMode => true
  | AutoLVMPartitioningMode | DefaultPartitioningMode =>
      existsb sizedNonRoot mountpoints
  end.

Definition GiB : N := 1073741824.

(** The table of [TestPartitionTableDefaultPartitioningMode]:
    default mode, requested mode, mountpoints, expected [isLVM]. *)
Definition var10 : list FilesystemCustomization :=
  [{| Mountpoint := "/var"; MinSize := 10 * GiB |}].

Definition testCases
  : list (option PartitioningMode * PartitioningMode
          * list FilesystemCustomization * bool) :=
  [ (None, DefaultPartitioningMode, [], false);
    (Some DefaultPartitioningMode, DefaultPartitioningMode, [], false);
    (None, AutoLVMPartitioningMode, [], false);
    (Some DefaultPartitioningMode, AutoLVMPartitioningMode, [], false);
    (None, LVMPartitioningMode, [], true);
    (Some DefaultPartitioningMode, LVMPartitioningMode, [], true);
    (None, RawPartitioningMode, [], false);
    (Some DefaultPartitioningMode, RawPartitioningMode, [], false);
    (None, DefaultPartitioningMode, var10, true);
    (Some DefaultPartitioningMode, DefaultPartitioningMode, var10, true);
    (Some AutoLVMPartitioningMode, DefaultPartitioningMode, var10, true);
    (Some LVMPartitioningMode, DefaultPartitioningMode, var10, true);
    (Some RawPartitioningMode, DefaultPartitioningMode, var10, false);
    (Some LVMPartitioningMode, RawPartitioningMode, var10, false);
    (Some AutoLVMPartitioningMode, RawPartitioningMode, var10, false);
    (Some RawPartitioningMode, LVMPartitioningMode, var10, true);
    (Some RawPartitioningMode, AutoLVMPartitioningMode, var10, true) ].

(** *** Partition tables and their features *)

Inductive FSKind : Type := xfs | vfat | ext4.

(** Modelled from the spec: the payload tree of section 3 (the type
    declarations of [pkg/disk] are missing): a filesystem, a LUKS container
    around one payload, a volume group of logical volumes, or a btrfs
    volume of subvolumes. *)
Inductive Payload : Type :=
| Filesystem (fstype : FSKind) (mountpoint : string)
| Luks (payload : Payload)
| LVMVolumeGroup (lvs : list LogicalVolume)
| BtrfsVolume (subvolumes : list (string * string))
with LogicalVolume : Type :=
| LV (name : string) (size : N) (payload : Payload).

Definition lvPayload (lv : LogicalVolume) : Payload :=
  match lv with LV _ _ p => p end.

(** Induction on payloads, through the lists of logical volumes. *)
Section PayloadInduction.
Variable P : Payload -> Prop.
Hypothesis Hfs : forall t mp, P (Filesystem t mp).
Hypothesis Hluks : forall p, P p -> P (Luks p).
Hypothesis Hlvm :
  forall lvs, Forall (fun lv => P (lvPayload lv)) lvs -> P (LVMVolumeGroup lvs).
Hypothesis Hbtrfs : forall svs, P (BtrfsVolume svs).

Fixpoint Payload_nested_ind (p : Payload) : P p :=
  match p with
  | Filesystem t mp => Hfs t mp
  | Luks p' => Hluks p' (Payload_nested_ind p')
  | LVMVolumeGroup lvs =>
      Hlvm lvs
        ((fix all (l : list LogicalVolume) : Forall (fun lv => P (lvPayload lv)) l :=
            match l with
            | [] => Forall_nil _
            | lv :: l' =>
                Forall_cons lv
                  (match lv as lv0 return P (lvPayload lv0) with
                   | LV _ _ p' => Payload_nested_ind p'
                   end)
                  (all l')
            end) lvs)
  | BtrfsVolume svs => Hbtrfs svs
  end.
End PayloadInduction.

Record Partition : Type := {
  Start : N;
  Size : N;
  PartPayload : Payload
}.

Record PartitionTable : Type := {
  TableSize : N;
  Partitions : list Partition;
  DefaultMode : option PartitioningMode
}.

Record partitionTableFeatures : Type := {
  XFS : bool;
  FAT : bool;
  LUKS : bool;
  LVM : bool;
  Btrfs : bool
}.

Inductive Feature : Type := fXFS | fFAT | fLUKS | fLVM | fBtrfs.

Definition Feature_eqb (a b : Feature) : bool :=
  match a, b with
  | fXFS, fXFS | fFAT, fFAT | fLUKS, fLUKS | fLVM, fLVM | fBtrfs, fBtrfs => true
  | _, _ => false
  end.

Definition flag (k : Feature) (f : partitionTableFeatures) : bool :=
  match k with
  | fXFS => XFS f
  | fFAT => FAT f
  | fLUKS => LUKS f
  | fLVM => LVM f
  | fBtrfs => Btrfs f
  end.

Definition noFeatures : partitionTableFeatures :=
  {| XFS := false; FAT := false; LUKS := false; LVM := false; Btrfs := false |}.

Definition setFlag (k : Feature) (f : partitionTableFeatures)
  : partitionTableFeatures :=
  {| XFS := (Feature_eqb k fXFS || XFS f)%bool;
     FAT := (Feature_eqb k fFAT || FAT f)%bool;
     LUKS := (Feature_eqb k fLUKS || LUKS f)%bool;
     LVM := (Feature_eqb k fLVM || LVM f)%bool;
     Btrfs := (Feature_eqb k fBtrfs || Btrfs f)%bool |}.

(** Modelled from the spec: the traversal of section 4.5, missing with the
    rest of [pkg/disk]: every payload is visited once, and a flag is set
    at a filesystem of a matching type or at a wrapper. *)
Fixpoint payloadFeatures (p : Payload) (f : partitionTableFeatures)
  : partitionTableFeatures :=
  match p with
  | Filesystem xfs _ => setFlag fXFS f
  | Filesystem vfat _ => setFlag fFAT f
  | Filesystem ext4 _ => f
  | Luks p' => payloadFeatures p' (setFlag fLUKS f)
  | LVMVolumeGroup lvs =>
      fold_left (fun acc lv => match lv with LV _ _ p' => payloadFeatures p' acc end)
        lvs (setFlag fLVM f)
  | BtrfsVolume _ => setFlag fBtrfs f
  end.

(** Modelled from the spec: [PartitionTable.features], likewise missing. *)
Definition features (pt : PartitionTable) : partitionTableFeatures :=
  fold_left (fun acc part => payloadFeatures (PartPayload part) acc)
    (Partitions pt) noFeatures.

(** A node that sets the flag [k] occurs in a payload tree. *)
Inductive occursIn (k : Feature) : Payload -> Prop :=
| occurs_xfs mp : k = fXFS -> occursIn k (Filesystem xfs mp)
| occurs_vfat mp : k = fFAT -> occursIn k (Filesystem vfat mp)
| occurs_luks p : k = fLUKS -> occursIn k (Luks p)
| occurs_under_luks p : occursIn k p -> occursIn k (Luks p)
| occurs_lvm lvs : k = fLVM -> occursIn k (LVMVolumeGroup lvs)
| occurs_in_lv lvs lv :
    In lv lvs -> occursIn k (lvPayload lv) -> occursIn k (LVMVolumeGroup lvs)
| occurs_btrfs svs : k = fBtrfs -> occursIn k (BtrfsVolume svs).

Definition MiB : N := 1048576.

Definition espPartition : Partition :=
  {| Start := 1 * MiB; Size := 200 * MiB;
     PartPayload := Filesystem vfat "/boot/efi" |}.

Definition bootPartition : Partition :=
  {| Start := 201 * MiB; Size := 500 * MiB;
     PartPayload := Filesystem xfs "/boot" |}.

(** Modelled from the spec: [testPartitionTables] is missing.  The plain
    table is the one of section 8, an ESP and a root filesystem; in the
    other three the root is wrapped as their name says. *)
Definition testPartitionTables (partitionType : string) : option PartitionTable :=
  if String.eqb partitionType "plain" then
    Some {| TableSize := 20 * GiB; DefaultMode := None;
            Partitions :=
              [ espPartition;
                {| Start := 201 * MiB; Size := 2 * GiB;
                   PartPayload := Filesystem xfs "/" |} ] |}
  else if String.eqb partitionType "luks" then
    Some {| TableSize := 20 * GiB; DefaultMode := None;
            Partitions :=
              [ espPartition;
                {| Start := 201 * MiB; Size := 2 * GiB;
                   PartPayload := Luks (Filesystem xfs "/") |} ] |}
  else if String.eqb partitionType "luks+lvm" then
    Some {| TableSize := 20 * GiB; DefaultMode := None;
            Partitions :=
              [ espPartition;
                {| Start := 201 * MiB; Size := 2 * GiB;
                   PartPayload :=
                     Luks (LVMVolumeGroup
                             [LV "rootlv" (2 * GiB) (Filesystem xfs "/")]) |} ] |}
  else if String.eqb partitionType "btrfs" then
    Some {| TableSize := 20 * GiB; DefaultMode := None;
            Partitions :=
              [ espPartition; bootPartition;
                {| Start := 701 * MiB; Size := 2 * GiB;
                   PartPayload := BtrfsVolume [("root", "/")] |} ] |}
  else None.

End Disk.

(** ** A small Go runtime to run the decoders on examples *)

Module Reference.
Import Json.

(** The float64 values the examples need: the integral ones and NaN. *)
Inductive f64 : Type :=
| F (z : Z)
| NaN.

Definition parseInt (lit : string) : option Z :=
  match NilZero.int_of_string lit with
  | Some i => Some (Z.of_int i)
  | None => None
  end.

#[export] Instance refFloat : GoFloat := {|
  float64 := f64;
  parseFloat := fun lit =>
    match parseInt lit with Some z => Some (F z) | None => None end;
  formatFloat := fun f =>
    match f with F z => Some (formatInt z) | NaN => None end
|}.

(** Integers are byte counts and must not be negative; of the strings only
    plain decimal numbers are read, the units are left out. *)
Definition refDecodeSize (size : any) : result N :=
  match size with
  | AInt64 z | AFloat64 (F z) =>
      if (z <? 0)%Z then Err (SizeError "cannot be negative") else Ok (Z.to_N z)
  | AString s =>
      match parseInt s with
      | Some z =>
          if (z <? 0)%Z then Err (SizeError "cannot be negative") else Ok (Z.to_N z)
      | None => Err (SizeError "failed to parse size")
      end
  | _ => Err (SizeError "failed to convert value to number")
  end.

#[export] Instance refSize : SizeDecoder := {| decodeSize := refDecodeSize |}.

End Reference.

(** ** The blueprint package: the structs around the decoder *)

(** The encoder writes a string with every byte sequence that is not valid
    UTF-8 replaced by U+FFFD. *)
Class GoUTF8 : Type := {
  toValidUTF8 : string -> string
}.

Module BlueprintCodec.
Import Json Blueprint.
Section Codec.
Context `{SizeDecoder} `{GoUTF8}.

(** *** [DiskCustomization.Partitions] *)

(** An element of [[]PartitionCustomization]: as for a logical volume, the
    decoder hands every value to the type's own [UnmarshalJSON], and an
    error it returns ends the decoding. *)
Definition storePartition : store PartitionCustomization :=
  fun j v =>
    match UnmarshalJSON v j with
    | (_, Some err) => Err err
    | (v', None) => Ok (v', None)
    end.

(** [Partitions] of a fresh [DiskCustomization] decoded from a JSON array:
    the elements start from the zero value. *)
Definition decodePartitions (l : list json)
  : result (list PartitionCustomization * option error) :=
  array storePartition zeroPartition l None.

(** *** [json.Marshal] on the structs, as their tags say *)

(** A member tagged [omitempty] is left out when its value is empty. *)
Definition omitempty (key : string) (j : json) (empty : bool)
  : list (string * json) :=
  if empty then [] else [(key, j)].

Definition isEmptyString (s : string) : bool := String.eqb s "".

Definition isEmptyList {A} (l : list A) : bool :=
  match l with [] => true | _ => false end.

Definition marshalString (s : string) : json := JString (toValidUTF8 s).

Definition marshalUint64 (n : N) : json := JNumber (formatInt (Z.of_N n)).

(** The members of an embedded [FilesystemTypedCustomization]. *)
Definition marshalFilesystemTyped (fs : FilesystemTypedCustomization)
  : list (string * json) :=
  [("mountpoint", marshalString (Mountpoint fs))]
  ++ omitempty "label" (marshalString (Label fs)) (isEmptyString (Label fs))
  ++ omitempty "fs_type" (marshalString (FSType fs)) (isEmptyString (FSType fs)).

Definition marshalLV (lv : LVCustomization) : json :=
  JObject
    (omitempty "name" (marshalString (lv_Name lv)) (isEmptyString (lv_Name lv))
     ++ omitempty "minsize" (marshalUint64 (lv_MinSize lv)) (N.eqb (lv_MinSize lv) 0)
     ++ marshalFilesystemTyped (lv_FilesystemTypedCustomization lv)).

Definition marshalSubvolume (sv : BtrfsSubvolumeCustomization) : json :=
  JObject [("name", marshalString (sv_Name sv));
           ("mountpoint", marshalString (sv_Mountpoint sv))].

(** A slice without elements stands for the nil slice, written [null]. *)
Definition marshalSlice {A} (elem : A -> json) (l : list A) : json :=
  match l with
  | [] => JNull
  | _ => JArray (map elem l)
  end.

(** [PartitionCustomization] has no [MarshalJSON]: its members are [type],
    [minsize] and the promoted members of the three embedded structs, in
    the order of declaration. *)
Definition marshalPartition (v : PartitionCustomization) : json :=
  JObject
    ([("type", marshalString (Type_ v));
      ("minsize", marshalUint64 (MinSize v));
      ("Subvolumes", marshalSlice marshalSubvolume (Subvolumes (BtrfsVolume v)));
      ("name", marshalString (Name (VG v)))]
     ++ omitempty "logical_volumes"
          (marshalSlice marshalLV (LogicalVolumes (VG v)))
          (isEmptyList (LogicalVolumes (VG v)))
     ++ marshalFilesystemTyped (FilesystemTyped v)).

(** *** Vocabulary of the statements *)

(** Only the payload of the type of [v'] differs from the one of [v]. *)
Definition variantOnly (v v' : PartitionCustomization) : Prop :=
  (Type_ v' = "plain" /\ BtrfsVolume v' = BtrfsVolume v /\ VG v' = VG v) \/
  (Type_ v' = "btrfs" /\ VG v' = VG v /\
   FilesystemTyped v' = FilesystemTyped v) \/
  (Type_ v' = "lvm" /\ BtrfsVolume v' = BtrfsVolume v /\
   FilesystemTyped v' = FilesystemTyped v).

(** The string under a key, else a default. *)
Definition stringAt (key : string) (o : list (string * json)) (dflt : string)
  : string :=
  match lookup key o with
  | Some (JString s) => s
  | _ => dflt
  end.

Definition filesystemAt (o : list (string * json))
    (fs : FilesystemTypedCustomization) : FilesystemTypedCustomization :=
  {| Mountpoint := stringAt "mountpoint" o (Mountpoint fs);
     Label := stringAt "label" o (Label fs);
     FSType := stringAt "fs_type" o (FSType fs) |}.

(** The size under the key [minsize], else a default. *)
Definition sizeAt (o : list (string * json)) (dflt : N) : N :=
  match lookup "minsize" o with
  | Some j =>
      match toAny j with
      | Ok a => match decodeSize a with Ok n => n | Err _ => dflt end
      | Err _ => dflt
      end
  | None => dflt
  end.

(** A member of a well-formed plain document: a [type] that is plain or
    empty, a [minsize] that [decodeSize] reads, or a string for one of the
    filesystem members. *)
Inductive plainMember : string -> json -> Prop :=
| plain_type t : t = "plain" \/ t = "" -> plainMember "type" (JString t)
| plain_minsize j a n :
    toAny j = Ok a -> isNil a = false -> decodeSize a = Ok n ->
    plainMember "minsize" j
| plain_filesystem key s : In key fsNames -> plainMember key (JString s).

(** The logical volumes decoded from the elements of an array. *)
Definition decodedLVs (l : list json) : list LVCustomization :=
  map (fun j => fst (LVCustomization_UnmarshalJSON zeroLV j)) l.

Definition volumeGroupAt (o : list (string * json)) (vg : VGCustomization)
  : VGCustomization :=
  {| Name := stringAt "name" o (Name vg);
     LogicalVolumes :=
       match lookup "logical_volumes" o with
       | Some (JArray l) => decodedLVs l
       | _ => LogicalVolumes vg
       end |}.

(** A member of a well-formed lvm document: the [type] lvm, a [minsize]
    that [decodeSize] reads, a string under [name], or under
    [logical_volumes] an array of documents that
    [LVCustomization.UnmarshalJSON] accepts. *)
Inductive lvmMember : string -> json -> Prop :=
| lvm_type : lvmMember "type" (JString "lvm")
| lvm_minsize j a n :
    toAny j = Ok a -> isNil a = false -> decodeSize a = Ok n ->
    lvmMember "minsize" j
| lvm_name s : lvmMember "name" (JString s)
| lvm_volumes l :
    Forall (fun j => snd (LVCustomization_UnmarshalJSON zeroLV j) = None) l ->
    lvmMember "logical_volumes" (JArray l).

(** A well-formed subvolume: an object with distinct keys, strings under
    [name] and [mountpoint]. *)
Inductive subvolumeMember : string -> json -> Prop :=
| subvolume_name s : subvolumeMember "name" (JString s)
| subvolume_mountpoint s : subvolumeMember "mountpoint" (JString s).

Definition subvolumeDoc (j : json) : Prop :=
  exists os, j = JObject os /\ NoDup (map fst os) /\
             forall key j', In (key, j') os -> subvolumeMember key j'.

Definition subvolumeAt (j : json) : BtrfsSubvolumeCustomization :=
  match j with
  | JObject os =>
      {| sv_Name := stringAt "name" os ""; sv_Mountpoint := stringAt "mountpoint" os "" |}
  | _ => zeroSubvolume
  end.

Definition btrfsVolumeAt (o : list (string * json))
    (b : BtrfsVolumeCustomization) : BtrfsVolumeCustomization :=
  {| Subvolumes :=
       match lookup "subvolumes" o with
       | Some (JArray l) => map subvolumeAt l
       | _ => Subvolumes b
       end |}.

(** A member of a well-formed btrfs document: the [type] btrfs, a
    [minsize] that [decodeSize] reads, or under [subvolumes] an array of
    well-formed subvolumes. *)
Inductive btrfsMember : string -> json -> Prop :=
| btrfs_type : btrfsMember "type" (JString "btrfs")
| btrfs_minsize j a n :
    toAny j = Ok a -> isNil a = false -> decodeSize a = Ok n ->
    btrfsMember "minsize" j
| btrfs_subvolumes l :
    Forall subvolumeDoc l -> btrfsMember "subvolumes" (JArray l).

(** A member the sniffer reads without error, or skips. *)
Definition sniffable (key : string) (j : json) : Prop :=
  (key = "type" /\ exists t, j = JString t) \/
  (key = "minsize" /\
   exists a n, toAny j = Ok a /\ isNil a = false /\ decodeSize a = Ok n) \/
  findField snifferNames key = None.

End Codec.
End BlueprintCodec.

(** ** The sbom package *)

Module Sbom.

(** What a call ends with: a return, or a panic. *)
Inductive outcome (A : Type) : Type :=
| Return (a : A)
| Panic (msg : string).
Arguments Return {A} a.
Arguments Panic {A} msg.

Definition StandardType : Type := N.
Definition StandardTypeNone : StandardType := 0%N.
Definition StandardTypeSpdx : StandardType := 1%N.

Definition StandardType_String (t : StandardType) : outcome string :=
  if N.eqb t StandardTypeNone then Return "none"
  else if N.eqb t StandardTypeSpdx then Return "spdx"
  else Panic "invalid standard type".

(** The verb [%s] on a [StandardType]: [fmt] calls [String] and, when it
    panics, prints the panic in place of the value. *)
Definition formatStandardType (t : StandardType) : string :=
  match StandardType_String t with
  | Return s => s
  | Panic msg => "%!s(PANIC=String method: " ++ msg ++ ")"
  end.

Section Documents.

(** [spdx.Document], and the reader and the writer of
    [github.com/spdx/tools-golang/json].  A [*spdx.Document] is [None] when
    it is the nil pointer.  The writer is given the two options the code
    passes (the indentation and the escaping of HTML) and returns what it
    wrote with its error. *)
Variable spdxDocument : Type.
Variable libError : Type.
Variable spdx_json_Read : string -> option spdxDocument * option libError.
Variable spdx_json_Write :
  option spdxDocument -> string -> bool -> string * option libError.

(** The name the runtime prints for the type [*spdx.Document]. *)
Variable spdxTypeName : string.

(** What an [interface{}] holds: nothing, a [*spdx.Document], or a value of
    another type, of which only the name of the type is kept. *)
Inductive iface : Type :=
| INil
| ISpdx (p : option spdxDocument)
| IOther (goType : string).

Definition ifaceType (d : iface) : string :=
  match d with
  | INil => "<nil>"
  | ISpdx _ => spdxTypeName
  | IOther t => t
  end.

(** [Library e] is an error of the library as it is, [ReadFailed e] the
    same wrapped by [NewDocumentFromSpdxJSON]. *)
Inductive sbomError : Type :=
| UnsupportedDocumentType (goType : string)
| Library (e : libError)
| ReadFailed (e : libError)
| ConversionNotSupported (target : string) (docType : string).

Record Document : Type := {
  docType : StandardType;
  document : iface
}.

Definition newDocument (d : iface) : option Document * option sbomError :=
  match d with
  | ISpdx _ =>
      (Some {| docType := StandardTypeSpdx; document := d |}, None)
  | _ => (None, Some (UnsupportedDocumentType (ifaceType d)))
  end.

Definition NewDocumentFromSpdxJSON (data : string)
  : option Document * option sbomError :=
  match spdx_json_Read data with
  | (_, Some err) => (None, Some (ReadFailed err))
  | (doc, None) => newDocument (ISpdx doc)
  end.

(** The assertion [d.document.( *spdx.Document)], in its form with one
    result: it panics on a value of another type. *)
Definition assertSpdx (d : iface) : outcome (option spdxDocument) :=
  match d with
  | ISpdx p => Return p
  | _ =>
      Panic ("interface conversion: interface {} is " ++ ifaceType d
             ++ ", not " ++ spdxTypeName)
  end.

(** The call of [spdx_json.Write] in [ToSpdxJSON], with its two options:
    what was written to [w], and the error of the library as it is. *)
Definition writeSpdx (p : option spdxDocument) : string * option sbomError :=
  match spdx_json_Write p "  " true with
  | (written, Some err) => (written, Some (Library err))
  | (written, None) => (written, None)
  end.

(** [ToSpdxJSON]: what was written to [w], and the error.  The receiver
    of the two methods is not the nil pointer. *)
Definition ToSpdxJSON (d : Document) : outcome (string * option sbomError) :=
  if N.eqb (docType d) StandardTypeSpdx then
    match assertSpdx (document d) with
    | Panic msg => Panic msg
    | Return p => Return (writeSpdx p)
    end
  else
    Return ("", Some (ConversionNotSupported "SPDX JSON"
                        (formatStandardType (docType d)))).

Definition ToSpdxDocument (d : Document)
  : outcome (option spdxDocument * option sbomError) :=
  if N.eqb (docType d) StandardTypeSpdx then
    match assertSpdx (document d) with
    | Panic msg => Panic msg
    | Return p => Return (p, None)
    end
  else
    Return (None, Some (ConversionNotSupported "SPDX document"
                          (formatStandardType (docType d)))).

End Documents.

Arguments INil {spdxDocument}.
Arguments ISpdx {spdxDocument} p.
Arguments IOther {spdxDocument} goType.
Arguments UnsupportedDocumentType {libError} goType.
Arguments Library {libError} e.
Arguments ReadFailed {libError} e.
Arguments ConversionNotSupported {libError} target docType.
Arguments docType {spdxDocument} d.
Arguments document {spdxDocument} d.
Arguments ifaceType {spdxDocument} spdxTypeName d.
Arguments newDocument {spdxDocument libError} spdxTypeName d.
Arguments NewDocumentFromSpdxJSON {spdxDocument libError}
  spdx_json_Read spdxTypeName data.
Arguments writeSpdx {spdxDocument libError} spdx_json_Write p.
Arguments ToSpdxJSON {spdxDocument libError} spdx_json_Write spdxTypeName d.
Arguments ToSpdxDocument {spdxDocument libError} spdxTypeName d.

End Sbom.

(** ** More of the small runtime, for the examples *)

Module ReferenceCodec.

(** The strings of the examples are ASCII, which is valid UTF-8. *)
#[export] Instance refUTF8 : GoUTF8 := {| toValidUTF8 := fun s => s |}.

(** A reader and a writer of SPDX documents for the examples: a document
    is its text, the empty text is not a document, and the nil document
    cannot be written. *)
Definition refRead (data : string) : option string * option string :=
  if String.eqb data "" then (None, Some "unexpected end of JSON input")
  else (Some data, None).

Definition refWrite (doc : option string) (indent : string) (escapeHTML : bool)
  : string * option string :=
  match doc with
  | Some text => (text, None)
  | None => ("", Some "nil document")
  end.

End ReferenceCodec.

(** * Properties *)

(** ** Partitioning mode *)

Module DiskFacts.
Import Disk.

(** The substitution of steps 1 to 3 never leaves [Default]. *)
Lemma substituteDefault_resolved d r :
  substituteDefault d r <> DefaultPartitioningMode.
Proof.
  destruct r; simpl; try discriminate.
  destruct d as [[]|]; discriminate.
Qed.

Lemma existsb_sizedNonRoot mps :
  existsb sizedNonRoot mps = true <->
  exists mp, In mp mps /\ Mountpoint mp <> "/" /\ (0 < MinSize mp)%N.
Proof.
  rewrite existsb_exists. split; intros [mp [Hin Hmp]]; exists mp; split; trivial.
  - unfold sizedNonRoot in Hmp. apply andb_true_iff in Hmp as [Hroot Hsize].
    apply negb_true_iff, String.eqb_neq in Hroot.
    apply N.ltb_lt in Hsize. now split.
  - destruct Hmp as [Hroot Hsize]. unfold sizedNonRoot.
    apply andb_true_iff. split.
    + now apply negb_true_iff, String.eqb_neq.
    + now apply N.ltb_lt.
Qed.

(** The resolver agrees with every row of the table of
    [TestPartitionTableDefaultPartitioningMode]. *)
Lemma testCases_agree :
  Forall (fun tc =>
            match tc with
            | (defaultMode, requestedMode, mountpoints, isLVM) =>
                resolve defaultMode requestedMode mountpoints = isLVM
            end) testCases.
Proof. repeat constructor. Qed.

(** C1: with the requested mode [Raw] the resolver answers [false] and with
    [LVM] it answers [true], whatever the default mode (none included) and
    whatever the mountpoints. *)
Theorem explicit_mode_overrides (d : option PartitioningMode)
    (mps : list FilesystemCustomization) :
  resolve d RawPartitioningMode mps = false /\
  resolve d LVMPartitioningMode mps = true.
Proof. split; reflexivity. Qed.

(** C2: with the requested mode [AutoLVM], or [Default] when the default is
    absent or is itself [Default], the resolver answers [true] exactly when
    some requested mountpoint is not the root and declares a positive
    minimum size; it is a total function, so it always answers. *)
Theorem auto_lvm_heuristic (d : option PartitioningMode)
    (r : PartitioningMode) (mps : list FilesystemCustomization) :
  r = AutoLVMPartitioningMode \/
  (r = DefaultPartitioningMode /\
   (d = None \/ d = Some DefaultPartitioningMode)) ->
  (resolve d r mps = true <->
   exists mp, In mp mps /\ Mountpoint mp <> "/" /\ (0 < MinSize mp)%N) /\
  (resolve d r mps = false <->
   forall mp, In mp mps -> Mountpoint mp = "/" \/ MinSize mp = 0%N).
Proof.
  intros Hmode.
  assert (Hres : resolve d r mps = existsb sizedNonRoot mps).
  { destruct Hmode as [-> | [-> [-> | ->]]]; reflexivity. }
  rewrite Hres. split.
  - apply existsb_sizedNonRoot.
  - rewrite <- not_true_iff_false, existsb_sizedNonRoot. split.
    + intros Hnone mp Hin.
      destruct (String.eqb_spec (Mountpoint mp) "/") as [|Hroot]; [now left|].
      right. destruct (N.eq_0_gt_0_cases (MinSize mp)) as [|Hpos]; trivial.
      exfalso. apply Hnone. now exists mp.
    + intros Hall [mp [Hin [Hroot Hpos]]].
      destruct (Hall mp Hin) as [|Hz]; [contradiction|]. lia.
Qed.

Lemma auto_lvm_heuristic_witness :
  resolve None DefaultPartitioningMode var10 = true <->
  exists mp, In mp var10 /\ Mountpoint mp <> "/" /\ (0 < MinSize mp)%N.
Proof.
  apply (auto_lvm_heuristic None DefaultPartitioningMode var10).
  right. split; [reflexivity | left; reflexivity].
Defined.

(** ** Features *)


Lemma flag_setFlag k k' f :
  flag k (setFlag k' f) = (Feature_eqb k' k || flag k f)%bool.
Proof. destruct k, k'; reflexivity. Qed.

Lemma Feature_eqb_eq a b : Feature_eqb a b = true <-> a = b.
Proof. destruct a, b; simpl; split; congruence. Qed.

Lemma flag_setFlag_true k k' f :
  flag k (setFlag k' f) = true <-> k = k' \/ flag k f = true.
Proof.
  rewrite flag_setFlag, orb_true_iff, Feature_eqb_eq. intuition congruence.
Qed.

Lemma fold_lvs_flag k (g : Payload -> partitionTableFeatures -> partitionTableFeatures)
    (lvs : list LogicalVolume) :
  Forall (fun lv => forall f,
            flag k (g (lvPayload lv) f) = true <->
            flag k f = true \/ occursIn k (lvPayload lv)) lvs ->
  forall f,
    flag k (fold_left (fun acc lv => g (lvPayload lv) acc) lvs f) = true <->
    flag k f = true \/ exists lv, In lv lvs /\ occursIn k (lvPayload lv).
Proof.
  induction 1 as [|lv lvs Hlv _ IH]; intros f; simpl.
  - split; [now left | intros [|[lv [[] _]]]; trivial].
  - rewrite IH, Hlv. split.
    + intros [[|Hocc]|[lv' [Hin Hocc]]]; [now left | |].
      * right. exists lv. now split; [left|].
      * right. exists lv'. now split; [right|].
    + intros [|[lv' [[->|Hin] Hocc]]]; [now left; left | now left; right |].
      right. now exists lv'.
Qed.

(** A flag is set after visiting a payload exactly when it was set before
    or a node of the payload sets it. *)
Lemma payloadFeatures_flag k p :
  forall f,
    flag k (payloadFeatures p f) = true <-> flag k f = true \/ occursIn k p.
Proof.
  induction p as [t mp | p IH | lvs IH | svs] using Payload_nested_ind; intros f.
  - destruct t; simpl; rewrite ?flag_setFlag_true; split.
    + intros [->|]; [right; now constructor | now left].
    + intros [|Hocc]; [now right | inversion Hocc; now left].
    + intros [->|]; [right; now constructor | now left].
    + intros [|Hocc]; [now right | inversion Hocc; now left].
    + now left.
    + intros [|Hocc]; [trivial | inversion Hocc].
  - simpl. rewrite IH, flag_setFlag_true. split.
    + intros [[->|]|Hocc]; [right; now apply occurs_luks | now left |].
      right; now apply occurs_under_luks.
    + intros [|Hocc]; [now left; right |].
      inversion Hocc; subst; [now left; left | now right].
  - simpl.
    assert (Heq : forall l a,
      fold_left (fun acc lv => match lv with LV _ _ p' => payloadFeatures p' acc end) l a =
      fold_left (fun acc lv => payloadFeatures (lvPayload lv) acc) l a).
    { induction l as [|[n sz q] l IHl]; intros a; simpl; [reflexivity | apply IHl]. }
    rewrite Heq, (fold_lvs_flag k payloadFeatures lvs IH), flag_setFlag_true. split.
    + intros [[->|]|[lv [Hin Hocc]]]; [right; now apply occurs_lvm | now left |].
      right. now apply occurs_in_lv with lv.
    + intros [|Hocc]; [now left; right |].
      inversion Hocc; subst; [now left; left |].
      right. eauto.
  - simpl. rewrite flag_setFlag_true. split.
    + intros [->|]; [right; now constructor | now left].
    + intros [|Hocc]; [now right | inversion Hocc; now left].
Qed.

Lemma fold_partitions_flag k (parts : list Partition) :
  forall f,
    flag k (fold_left (fun acc part => payloadFeatures (PartPayload part) acc)
              parts f) = true <->
    flag k f = true \/ exists part, In part parts /\ occursIn k (PartPayload part).
Proof.
  induction parts as [|part parts IH]; intros f; simpl.
  - split; [now left | intros [|[part [[] _]]]; trivial].
  - rewrite IH, payloadFeatures_flag. split.
    + intros [[|Hocc]|[part' [Hin Hocc]]]; [now left | |].
      * right. exists part. now split; [left|].
      * right. exists part'. now split; [right|].
    + intros [|[part' [[->|Hin] Hocc]]]; [now left; left | now left; right |].
      right. now exists part'.
Qed.


End DiskFacts.

(** ** The decoder of partition customizations *)

Module JsonFacts.
Import Json.
Section Facts.
Context `{GoFloat}.

Lemma object_saved {S} strict names (set : string -> store S) o :
  forall s e, failed (object strict names set o s (Some e)).
Proof.
  induction o as [|[key j] o IH]; intros s e; simpl; trivial.
  destruct (findField names key) as [f|].
  - destruct (set f j s) as [[s' e']|]; simpl; trivial.
  - destruct strict; apply IH.
Qed.

(** Under [DisallowUnknownFields] a member whose key selects no field
    makes the decoding of the object fail. *)
Lemma object_strict_unknown {S} names (set : string -> store S) o key j :
  In (key, j) o -> findField names key = None ->
  forall s saved, failed (object true names set o s saved).
Proof.
  induction o as [|[key' j'] o IH]; intros Hin Hnone s saved; [contradiction|].
  simpl. destruct Hin as [Heq|Hin].
  - inversion Heq; subst. rewrite Hnone.
    destruct saved; simpl; apply object_saved.
  - destruct (findField names key') as [f|].
    + destruct (set f j' s) as [[s' e']|]; simpl; trivial. now apply IH.
    + now apply IH.
Qed.

(** Without it such a member is skipped. *)
Lemma object_lax_skip {S} names (set : string -> store S) key j o1 o2 :
  findField names key = None ->
  forall s saved,
    object false names set (o1 ++ (key, j) :: o2) s saved =
    object false names set (o1 ++ o2) s saved.
Proof.
  intros Hnone. induction o1 as [|[key' j'] o1 IH]; intros s saved; simpl.
  - now rewrite Hnone.
  - destruct (findField names key') as [f|]; [|apply IH].
    destruct (set f j' s) as [[s' e']|]; trivial.
Qed.

Lemma unmarshalStruct_failed {S} strict names (set : string -> store S) g o s :
  failed (object strict names set o s None) ->
  isErr (unmarshalStruct strict names set g (JObject o) s) = true.
Proof.
  unfold unmarshalStruct, structValue.
  destruct (object strict names set o s None) as [[s' [e|]]|]; simpl; tauto.
Qed.

(** *** The encoder on maps *)

Lemma insertByKey_perm {A} (kv : string * A) l :
  Permutation (insertByKey kv l) (kv :: l).
Proof.
  induction l as [|kv' l IH]; simpl; [reflexivity|].
  destruct (String.leb (fst kv) (fst kv')); [reflexivity|].
  rewrite IH. apply perm_swap.
Qed.

Lemma sortByKey_perm {A} (l : list (string * A)) : Permutation (sortByKey l) l.
Proof.
  induction l as [|kv l IH]; simpl; [reflexivity|].
  rewrite insertByKey_perm. now constructor.
Qed.

Lemma sequenceEntries_Ok {A} (l : list (string * result A)) o :
  sequenceEntries l = Ok o ->
  l = map (fun kv => (fst kv, Ok (snd kv))) o.
Proof.
  revert o. induction l as [|[k r] l IH]; intros o; simpl.
  - intros Heq. inversion Heq. reflexivity.
  - destruct r as [a|e]; [|discriminate].
    fold (sequenceEntries l). destruct (sequenceEntries l) as [o'|]; [|discriminate].
    intros Heq. inversion Heq; subst. simpl. f_equal. now apply IH.
Qed.

(** The object a map is encoded to has the members of the map, each value
    encoded, in some order. *)
Lemma Marshal_map d j :
  Marshal (AMap d) = Ok j ->
  exists o, j = JObject o /\
    Permutation (map (fun kv => (fst kv, Ok (snd kv))) o)
                (map (fun kv => (fst kv, Marshal (snd kv))) d).
Proof.
  simpl.
  destruct (sequenceEntries _) as [o|] eqn:Hseq; [|discriminate].
  intros Heq. inversion Heq; subst. exists o. split; [reflexivity|].
  apply sequenceEntries_Ok in Hseq. rewrite <- Hseq. apply sortByKey_perm.
Qed.

Lemma Marshal_map_member d o key a :
  Marshal (AMap d) = Ok (JObject o) -> In (key, a) d ->
  exists j, In (key, j) o /\ Marshal a = Ok j.
Proof.
  intros Hm Hin. apply Marshal_map in Hm as [o' [Heq Hperm]].
  inversion Heq; subst o'.
  assert (Hin' : In (key, Marshal a) (map (fun kv => (fst kv, Marshal (snd kv))) d)).
  { apply in_map_iff. now exists (key, a). }
  apply (Permutation_in _ (Permutation_sym Hperm)) in Hin'.
  apply in_map_iff in Hin' as [[k j] [Heq' Hin']]. simpl in Heq'.
  inversion Heq'; subst. now exists j.
Qed.

Lemma Marshal_map_keys d o :
  Marshal (AMap d) = Ok (JObject o) -> Permutation (map fst o) (map fst d).
Proof.
  intros Hm. apply Marshal_map in Hm as [o' [Heq Hperm]].
  inversion Heq; subst o'.
  apply (Permutation_map fst) in Hperm.
  rewrite !map_map in Hperm. simpl in Hperm. exact Hperm.
Qed.

(** *** Maps with distinct keys *)

Lemma lookup_In {A} key (a : A) m :
  lookup key m = Some a -> In (key, a) m.
Proof.
  induction m as [|[k b] m IH]; simpl; [discriminate|].
  destruct (String.eqb_spec k key) as [->|].
  - intros Heq. inversion Heq. now left.
  - intros Hl. right. now apply IH.
Qed.

Lemma lookup_None {A} key (m : list (string * A)) :
  lookup key m = None -> ~ In key (map fst m).
Proof.
  induction m as [|[k b] m IH]; simpl; [tauto|].
  destruct (String.eqb_spec k key) as [->|Hne]; [discriminate|].
  intros Hl [Heq|Hin]; [contradiction | now apply IH].
Qed.

(** *** Null *)

Lemma Marshal_null a : Marshal a = Ok JNull -> a = ANil.
Proof.
  destruct a; simpl; trivial; try discriminate.
  - destruct (formatFloat f); discriminate.
  - destruct (sequence _); discriminate.
  - destruct (sequenceEntries _); discriminate.
Qed.

Lemma toAny_nil j : toAny j = Ok ANil -> j = JNull.
Proof.
  destruct j; simpl; trivial; try discriminate.
  - destruct (parseFloat lit); discriminate.
  - destruct (sequence _); discriminate.
  - destruct (sequenceEntries _); discriminate.
Qed.

(** *** Field lookup in a struct that extends another *)

Lemma find_app {A} (p : A -> bool) l1 l2 :
  find p (l1 ++ l2) =
  match find p l1 with
  | Some x => Some x
  | None => find p l2
  end.
Proof.
  induction l1 as [|x l1 IH]; simpl; [reflexivity|].
  now destruct (p x).
Qed.

Lemma findField_In names key f : findField names key = Some f -> In f names.
Proof.
  unfold findField.
  destruct (find (String.eqb key) names) eqn:Hex.
  - intros Heq. inversion Heq; subst. now apply find_some in Hex.
  - intros Hfold. now apply find_some in Hfold.
Qed.

Lemma findField_extend names rest key f :
  foldApart names rest = true ->
  findField names key = Some f ->
  findField (names ++ rest) key = Some f.
Proof.
  unfold findField. intros Hapart. rewrite !find_app.
  destruct (find (String.eqb key) names) as [n|] eqn:Hex; trivial.
  intros Hfold. rewrite Hfold.
  destruct (find (String.eqb key) rest) as [n|] eqn:Hrest; trivial.
  exfalso.
  apply find_some in Hrest as [Hin Hn]. apply String.eqb_eq in Hn. subst n.
  apply find_some in Hfold as [Hinf Hf].
  unfold foldApart in Hapart. rewrite forallb_forall in Hapart.
  specialize (Hapart key Hin). rewrite forallb_forall in Hapart.
  specialize (Hapart f Hinf). now rewrite Hf in Hapart.
Qed.

End Facts.
End JsonFacts.

Module BlueprintFacts.
Import Json Blueprint JsonFacts.
Section Facts.
Context `{SizeDecoder}.

(** *** The [switch] *)

Lemma switchPartType_unknown errPrefix partType v data :
  knownType partType = false ->
  switchPartType errPrefix partType v data =
  (v, Some (UnknownPartitionType errPrefix partType)).
Proof.
  unfold knownType, switchPartType. intros Hk.
  apply orb_false_iff in Hk as [Hk Hlvm].
  apply orb_false_iff in Hk as [Hplain Hbtrfs].
  now rewrite Hplain, Hbtrfs, Hlvm.
Qed.

Lemma switchPartType_failed errPrefix partType v o :
  failed (object true plainNames setPlainDoc o zeroPlainDoc None) ->
  failed (object true btrfsNames (setBtrfsDoc true) o zeroBtrfsDoc None) ->
  failed (object true vgNames setVgDoc o zeroVgDoc None) ->
  snd (switchPartType errPrefix partType v (JObject o)) <> None.
Proof.
  unfold switchPartType. intros Hplain Hbtrfs Hvg.
  destruct (String.eqb partType "plain").
  { unfold decodePlain.
    pose proof (unmarshalStruct_failed _ _ _ "struct" _ _ Hplain) as Herr.
    destruct (unmarshalStruct _ _ _ _ _ _); simpl in *; congruence. }
  destruct (String.eqb partType "btrfs").
  { unfold decodeBtrfs.
    pose proof (unmarshalStruct_failed _ _ _ "struct" _ _ Hbtrfs) as Herr.
    destruct (unmarshalStruct _ _ _ _ _ _); simpl in *; congruence. }
  destruct (String.eqb partType "lvm").
  { unfold decodeLVM.
    pose proof (unmarshalStruct_failed _ _ _ "struct" _ _ Hvg) as Herr.
    destruct (unmarshalStruct _ _ _ _ _ _); simpl in *; congruence. }
  simpl. congruence.
Qed.

(** A variant decoder rejects a document with a member that is not one of
    its struct. *)
Lemma switchPartType_strict errPrefix partType v o key j :
  In (key, j) o -> findField (variantNames partType) key = None ->
  snd (switchPartType errPrefix partType v (JObject o)) <> None.
Proof.
  unfold switchPartType, variantNames. intros Hin Hnone.
  destruct (String.eqb partType "plain").
  { unfold decodePlain.
    pose proof (unmarshalStruct_failed true plainNames setPlainDoc "struct" o
                  zeroPlainDoc
                  (object_strict_unknown _ _ _ _ _ Hin Hnone _ _)) as Herr.
    destruct (unmarshalStruct _ _ _ _ _ _); simpl in *; congruence. }
  destruct (String.eqb partType "btrfs").
  { unfold decodeBtrfs.
    pose proof (unmarshalStruct_failed true btrfsNames (setBtrfsDoc true) "struct"
                  o zeroBtrfsDoc
                  (object_strict_unknown _ _ _ _ _ Hin Hnone _ _)) as Herr.
    destruct (unmarshalStruct _ _ _ _ _ _); simpl in *; congruence. }
  destruct (String.eqb partType "lvm").
  { unfold decodeLVM.
    pose proof (unmarshalStruct_failed true vgNames setVgDoc "struct" o zeroVgDoc
                  (object_strict_unknown _ _ _ _ _ Hin Hnone _ _)) as Herr.
    destruct (unmarshalStruct _ _ _ _ _ _); simpl in *; congruence. }
  simpl. congruence.
Qed.

(** The error prefix apart, the [switch] does the same for both entry
    points. *)
Lemma switchPartType_prefix p1 p2 partType v data :
  fst (switchPartType p1 partType v data) = fst (switchPartType p2 partType v data) /\
  (snd (switchPartType p1 partType v data) = None <->
   snd (switchPartType p2 partType v data) = None).
Proof.
  unfold switchPartType.
  destruct (String.eqb partType "plain");
    [destruct (decodePlain v data) as [v' [e|]]; simpl; split; try reflexivity;
     split; discriminate|].
  destruct (String.eqb partType "btrfs");
    [destruct (decodeBtrfs v data) as [v' [e|]]; simpl; split; try reflexivity;
     split; discriminate|].
  destruct (String.eqb partType "lvm");
    [destruct (decodeLVM v data) as [v' [e|]]; simpl; split; try reflexivity;
     split; discriminate|].
  simpl. split; [reflexivity | split; discriminate].
Qed.

(** *** The sniffer *)

Lemma setTypeSniffer_error f j s :
  exists s', setTypeSniffer f j s = Ok (s', memberError f j).
Proof.
  unfold setTypeSniffer, memberError, storeString, storeAny.
  destruct (String.eqb f "type").
  - destruct j; eexists; reflexivity.
  - destruct (toAny j); eexists; reflexivity.
Qed.

Ltac sniffed_field :=
  match goal with
  | Hin : In _ snifferNames |- _ =>
      destruct Hin as [<-|[<-|[]]]; simpl;
      unfold memberError, storeString, storeAny; simpl;
      match goal with
      | |- context [toAny ?j] => destruct (toAny j)
      | |- context [match ?j with JNull => _ | _ => _ end] => destruct j
      end;
      eexists; reflexivity
  end.

Lemma setPlainDoc_error f j s :
  In f snifferNames -> exists s', setPlainDoc f j s = Ok (s', memberError f j).
Proof. intros Hin. unfold setPlainDoc. sniffed_field. Qed.

Lemma setBtrfsDoc_error strict f j s :
  In f snifferNames -> exists s', setBtrfsDoc strict f j s = Ok (s', memberError f j).
Proof. intros Hin. unfold setBtrfsDoc. sniffed_field. Qed.

Lemma setVgDoc_error f j s :
  In f snifferNames -> exists s', setVgDoc f j s = Ok (s', memberError f j).
Proof. intros Hin. unfold setVgDoc. sniffed_field. Qed.

(** Whatever makes the sniffer fail makes the decoder of a struct with the
    same two members fail. *)
Lemma sniffer_simulated {S} strict names (set : string -> store S) :
  (forall key f, findField snifferNames key = Some f ->
                 findField names key = Some f) ->
  (forall f j s, In f snifferNames ->
                 exists s', set f j s = Ok (s', memberError f j)) ->
  forall o s1 s2 sv1 sv2,
    (sv1 <> None -> sv2 <> None) ->
    failed (object false snifferNames setTypeSniffer o s1 sv1) ->
    failed (object strict names set o s2 sv2).
Proof.
  intros Hfind Hset.
  induction o as [|[key j] o IH]; intros s1 s2 sv1 sv2 Hinv; simpl.
  - destruct sv1, sv2; simpl; trivial. intros _. now apply Hinv.
  - destruct (findField snifferNames key) as [f|] eqn:Hf.
    + rewrite (Hfind _ _ Hf).
      destruct (setTypeSniffer_error f j s1) as [s1' ->].
      destruct (Hset f j s2 (findField_In _ _ _ Hf)) as [s2' ->].
      apply IH. destruct sv1, sv2, (memberError f j); simpl; trivial;
        try discriminate; intros _; now apply Hinv.
    + intros Hfail. destruct (findField names key) as [g|].
      * destruct (set g j s2) as [[s2' e']|]; simpl; trivial.
        apply (IH s1 s2' sv1 (saveError sv2 e')); trivial.
        intros Hsv. specialize (Hinv Hsv). destruct sv2; simpl; congruence.
      * apply (IH s1 s2 sv1); trivial.
        intros Hsv. specialize (Hinv Hsv). destruct strict, sv2; simpl; congruence.
Qed.

Lemma sniffer_error_switch errPrefix partType v o :
  isErr (unmarshalStruct false snifferNames setTypeSniffer "struct" (JObject o)
           zeroTypeSniffer) = true ->
  snd (switchPartType errPrefix partType v (JObject o)) <> None.
Proof.
  intros Herr.
  assert (Hfail : failed (object false snifferNames setTypeSniffer o
                            zeroTypeSniffer None)).
  { unfold unmarshalStruct, structValue in Herr.
    destruct (object _ _ _ _ _ _) as [[s' [e|]]|]; simpl in *; trivial.
    discriminate. }
  apply switchPartType_failed.
  - apply (sniffer_simulated true plainNames setPlainDoc) with (4 := Hfail);
      [| apply setPlainDoc_error | tauto].
    intros key f. now apply (findField_extend snifferNames fsNames).
  - apply (sniffer_simulated true btrfsNames (setBtrfsDoc true)) with (4 := Hfail);
      [| apply setBtrfsDoc_error | tauto].
    intros key f. now apply (findField_extend snifferNames ["Subvolumes"]).
  - apply (sniffer_simulated true vgNames setVgDoc) with (4 := Hfail);
      [| apply setVgDoc_error | tauto].
    intros key f. now apply (findField_extend snifferNames ["name"; "logical_volumes"]).
Qed.

Lemma exactKeys_tail key keys : exactKeys (key :: keys) -> exactKeys keys.
Proof. intros Hex k f Hin. apply Hex. now right. Qed.

Lemma sniffer_other_kept o f :
  In f snifferNames ->
  ~ In f (map fst o) -> exactKeys (map fst o) ->
  forall s sv s' sv',
    object false snifferNames setTypeSniffer o s sv = Ok (s', sv') ->
    (f = "type" -> ts_Type s' = ts_Type s) /\
    (f = "minsize" -> ts_MinSize s' = ts_MinSize s).
Proof.
  intros Hf.
  induction o as [|[key j] o IH]; intros Hnot Hex s sv s' sv'; simpl.
  - intros Heq. inversion Heq. tauto.
  - simpl in Hnot.
    assert (Hnot' : ~ In f (map fst o)) by tauto.
    pose proof (exactKeys_tail _ _ Hex) as Hex'.
    destruct (findField snifferNames key) as [g|] eqn:Hg;
      [|now apply IH].
    assert (Hkey : key = g) by (apply Hex; [now left | trivial]). subst g.
    assert (Hne : key <> f) by tauto.
    pose proof (findField_In _ _ _ Hg) as Hin.
    unfold setTypeSniffer, storeString, storeAny.
    destruct Hin as [<-|[<-|[]]]; destruct Hf as [<-|[<-|[]]];
      try (now contradiction Hne); simpl.
    + destruct j; intros Hobj;
        destruct (IH Hnot' Hex' _ _ _ _ Hobj) as [_ Hm];
        (split; [discriminate | intros _; now rewrite Hm]).
    + destruct (toAny j); intros Hobj;
        destruct (IH Hnot' Hex' _ _ _ _ Hobj) as [Ht _];
        (split; [intros _; now rewrite Ht | discriminate]).
Qed.

Lemma sniffer_type_read o t :
  NoDup (map fst o) -> exactKeys (map fst o) -> In ("type", JString t) o ->
  forall s sv s' sv',
    object false snifferNames setTypeSniffer o s sv = Ok (s', sv') ->
    ts_Type s' = t.
Proof.
  induction o as [|[key j] o IH]; intros Hnd Hex Hin s sv s' sv'; [contradiction|].
  simpl in Hnd. inversion Hnd as [|? ? Hkey Hnd']; subst.
  pose proof (exactKeys_tail _ _ Hex) as Hex'.
  destruct Hin as [Heq|Hin].
  - inversion Heq; subst. simpl. intros Hobj.
    destruct (sniffer_other_kept o "type" (or_introl eq_refl) Hkey Hex' _ _ _ _ Hobj)
      as [Ht _].
    now rewrite Ht.
  - simpl. destruct (findField snifferNames key) as [g|]; [|now apply IH].
    destruct (setTypeSniffer_error g j s) as [s1 ->]. now apply IH.
Qed.

Lemma setTypeSniffer_minsize jm s :
  setTypeSniffer "minsize" jm s =
  match toAny jm with
  | Ok a => Ok ({| ts_Type := ts_Type s; ts_MinSize := a |}, None)
  | Err e => Ok ({| ts_Type := ts_Type s; ts_MinSize := ANil |}, Some e)
  end.
Proof. unfold setTypeSniffer, storeAny. simpl. now destruct (toAny jm). Qed.

Lemma sniffer_minsize_read o jm :
  NoDup (map fst o) -> exactKeys (map fst o) -> In ("minsize", jm) o ->
  forall s sv s',
    object false snifferNames setTypeSniffer o s sv = Ok (s', None) ->
    toAny jm = Ok (ts_MinSize s').
Proof.
  induction o as [|[key j] o IH]; intros Hnd Hex Hin s sv s'; [contradiction|].
  simpl in Hnd. inversion Hnd as [|? ? Hkey Hnd']; subst.
  pose proof (exactKeys_tail _ _ Hex) as Hex'.
  destruct Hin as [Heq|Hin].
  - inversion Heq; subst. clear IH. simpl. rewrite setTypeSniffer_minsize.
    destruct (toAny jm) as [a|e]; intros Hobj.
    + destruct (sniffer_other_kept o "minsize" (or_intror (or_introl eq_refl))
                  Hkey Hex' _ _ _ _ Hobj) as [_ Hm].
      now rewrite Hm.
    + exfalso.
      assert (Hsv : exists e', saveError sv (Some e) = Some e')
        by (destruct sv; simpl; eauto).
      destruct Hsv as [e' Hsv]. rewrite Hsv in Hobj.
      pose proof (object_saved false snifferNames setTypeSniffer o
                    {| ts_Type := ts_Type s; ts_MinSize := ANil |} e') as Hf.
      now rewrite Hobj in Hf.
  - simpl. destruct (findField snifferNames key) as [g|]; [|now apply IH].
    destruct (setTypeSniffer_error g j s) as [s1 ->]. now apply IH.
Qed.

(** *** The two entry points, by the selected type *)

Lemma UnmarshalJSON_selected v data partType :
  selectedTypeJSON data = Some partType ->
  snd (switchPartType "JSON unmarshal:" partType v data) <> None ->
  UnmarshalJSON v data = switchPartType "JSON unmarshal:" partType v data.
Proof.
  unfold selectedTypeJSON, UnmarshalJSON. intros Hsel Herr.
  destruct (unmarshalStruct _ _ _ _ _ _) as [sniffed|]; [|discriminate].
  inversion Hsel as [Ht]. rewrite Ht.
  destruct (switchPartType _ _ _ _) as [v' [e|]]; [reflexivity|].
  now contradiction Herr.
Qed.

Lemma UnmarshalTOML_selected v d dataJSON partType :
  selectedTypeTOML d = Some partType ->
  Marshal (AMap d) = Ok dataJSON ->
  snd (switchPartType "TOML unmarshal:" partType v dataJSON) <> None ->
  UnmarshalTOML v (AMap d) = switchPartType "TOML unmarshal:" partType v dataJSON.
Proof.
  unfold selectedTypeTOML, UnmarshalTOML. intros Hsel Hm Herr.
  rewrite Hm.
  destruct (lookup "type" d) as [[]|]; try discriminate;
    inversion Hsel as [Ht]; try rewrite Ht;
    (destruct (switchPartType _ _ _ _) as [v' [e|]];
       [reflexivity | now contradiction Herr]).
Qed.

Lemma UnmarshalTOML_unmarshalable v d e :
  Marshal (AMap d) = Err e -> snd (UnmarshalTOML v (AMap d)) <> None.
Proof.
  unfold UnmarshalTOML. intros Hm. rewrite Hm.
  destruct (lookup "type" d) as [[]|]; simpl; congruence.
Qed.

Lemma UnmarshalTOML_unknown_type v d dataJSON partType :
  selectedTypeTOML d = Some partType ->
  knownType partType = false ->
  Marshal (AMap d) = Ok dataJSON ->
  UnmarshalTOML v (AMap d) =
  (v, Some (UnknownPartitionType "TOML unmarshal:" partType)).
Proof.
  intros Hsel Hk Hm.
  rewrite (UnmarshalTOML_selected v d dataJSON partType Hsel Hm);
    rewrite (switchPartType_unknown _ _ _ _ Hk); simpl; congruence.
Qed.

(** *** Unknown partition types *)


(** *** The empty type *)

(** C5, where the code departs from it: a map whose [type] is the empty
    string is not decoded as plain by the TOML entry point, it is rejected
    as an unknown partition type (the JSON entry point takes the empty
    string for plain). *)
Theorem toml_empty_type_rejected (v : PartitionCustomization)
    (d : list (string * any)) (dataJSON : json) :
  lookup "type" d = Some (AString "") ->
  Marshal (AMap d) = Ok dataJSON ->
  UnmarshalTOML v (AMap d) = (v, Some (UnknownPartitionType "TOML unmarshal:" "")).
Proof.
  intros Ht Hm. apply UnmarshalTOML_unknown_type with dataJSON; trivial.
  unfold selectedTypeTOML. now rewrite Ht.
Qed.

(** *** Input checks of the TOML entry point *)

(** C10: on a value that is not a map with string keys [UnmarshalTOML]
    returns the not-an-object error, and on a map whose [type] is present
    and is not a string it returns the type-must-be-a-string error; the
    receiver is unchanged in both cases. *)
Theorem toml_input_checks (v : PartitionCustomization) :
  (forall data,
     (forall d, data <> AMap d) ->
     UnmarshalTOML v data = (v, Some (NotAnObject "TOML unmarshal:"))) /\
  (forall d typeField,
     lookup "type" d = Some typeField ->
     (forall typeStr, typeField <> AString typeStr) ->
     UnmarshalTOML v (AMap d) =
     (v, Some (TypeNotString "TOML unmarshal:" (goType typeField)))).
Proof.
  split.
  - intros data Hnot. destruct data; try reflexivity. now contradiction (Hnot m).
  - intros d typeField Ht Hnot. unfold UnmarshalTOML. rewrite Ht.
    destruct typeField; try reflexivity. now contradiction (Hnot s).
Qed.

(** *** Members of another variant *)

(** C4: [logical_volumes] is no member of the plain struct and
    [mountpoint] none of the lvm struct; and a document with a member that
    the struct of its selected type does not have is rejected by both
    entry points. *)
Theorem foreign_field_rejected (v : PartitionCustomization) :
  (findField (variantNames "plain") "logical_volumes" = None /\
   findField (variantNames "lvm") "mountpoint" = None) /\
  forall partType key,
    findField (variantNames partType) key = None ->
    (forall o j,
       selectedTypeJSON (JObject o) = Some partType ->
       In (key, j) o ->
       snd (UnmarshalJSON v (JObject o)) <> None) /\
    (forall d a,
       selectedTypeTOML d = Some partType ->
       In (key, a) d ->
       snd (UnmarshalTOML v (AMap d)) <> None).
Proof.
  split; [split; reflexivity|].
  intros partType key Hnone. split.
  - intros o j Hsel Hin.
    pose proof (switchPartType_strict "JSON unmarshal:" partType v o key j Hin Hnone)
      as Herr.
    now rewrite (UnmarshalJSON_selected v _ partType Hsel Herr).
  - intros d a Hsel Hin.
    destruct (Marshal (AMap d)) as [dataJSON|e] eqn:Hm;
      [|now apply UnmarshalTOML_unmarshalable with e].
    destruct (Marshal_map d dataJSON Hm) as [o [-> _]].
    destruct (Marshal_map_member d o key a Hm Hin) as [j [Hin' _]].
    pose proof (switchPartType_strict "TOML unmarshal:" partType v o key j Hin' Hnone)
      as Herr.
    now rewrite (UnmarshalTOML_selected v d _ partType Hsel Hm Herr).
Qed.

(** *** The two entry points on one document *)

Lemma UnmarshalTOML_unfold v d dataJSON partType :
  selectedTypeTOML d = Some partType ->
  Marshal (AMap d) = Ok dataJSON ->
  UnmarshalTOML v (AMap d) =
  match switchPartType "TOML unmarshal:" partType v dataJSON with
  | (v', Some err) => (v', Some err)
  | (v', None) =>
      match lookup "minsize" d with
      | Some minsizeField =>
          match decodeSize minsizeField with
          | Err err =>
              (setType v' partType, Some (MinSizeError "TOML unmarshal:" err))
          | Ok minsize => (setMinSize (setType v' partType) minsize, None)
          end
      | None => (setType v' partType, None)
      end
  end.
Proof.
  unfold selectedTypeTOML, UnmarshalTOML. intros Hsel Hm. rewrite Hm.
  destruct (lookup "type" d) as [[]|]; try discriminate;
    inversion Hsel; subst; reflexivity.
Qed.

(** C6, as the code has it: take a map with distinct keys that has a JSON
    form, whose [type] is absent or a string that is not empty, in which
    only the keys [type] and [minsize] themselves are matched to these two
    members, and on whose [minsize], if present, [decodeSize] answers the
    same before and after the passage through JSON.  Then [UnmarshalTOML]
    on the map and [UnmarshalJSON] on its JSON form both fail, or both
    succeed with the same value. *)
Theorem toml_json_agree (v : PartitionCustomization)
    (d : list (string * any)) (dataJSON : json) :
  NoDup (map fst d) ->
  (lookup "type" d = None \/
   exists t, t <> "" /\ lookup "type" d = Some (AString t)) ->
  exactKeys (map fst d) ->
  (forall m, lookup "minsize" d = Some m ->
     m <> ANil /\
     forall jm a, Marshal m = Ok jm -> toAny jm = Ok a ->
                  decodeSize a = decodeSize m) ->
  Marshal (AMap d) = Ok dataJSON ->
  sameOutcome (UnmarshalTOML v (AMap d)) (UnmarshalJSON v dataJSON).
Proof.
  intros Hnd Htype Hex Hsize Hm.
  destruct (Marshal_map d dataJSON Hm) as [o [-> _]].
  pose proof (Marshal_map_keys d o Hm) as Hperm.
  assert (Hnd_o : NoDup (map fst o))
    by apply (Permutation_NoDup (Permutation_sym Hperm) Hnd).
  assert (Hex_o : exactKeys (map fst o)).
  { intros key f Hin. apply Hex. now apply (Permutation_in _ Hperm). }
  assert (Hsel : exists pt, selectedTypeTOML d = Some pt /\
            forall sniffed sv,
              object false snifferNames setTypeSniffer o zeroTypeSniffer None =
                Ok (sniffed, sv) ->
              (if negb (String.eqb (ts_Type sniffed) "") then ts_Type sniffed
               else "plain") = pt).
  { destruct Htype as [Hnone | [t [Hne Hsome]]].
    - exists "plain". unfold selectedTypeTOML. rewrite Hnone.
      split; [reflexivity|]. intros sniffed sv Hobj.
      assert (Hnot : ~ In "type" (map fst o)).
      { intros Hin. apply (lookup_None _ _ Hnone).
        now apply (Permutation_in _ Hperm). }
      destruct (sniffer_other_kept o "type" (or_introl eq_refl) Hnot Hex_o
                  _ _ _ _ Hobj) as [Ht _].
      now rewrite (Ht eq_refl).
    - exists t. unfold selectedTypeTOML. rewrite Hsome.
      split; [reflexivity|]. intros sniffed sv Hobj.
      destruct (Marshal_map_member d o "type" _ Hm (lookup_In _ _ _ Hsome))
        as [j [Hin Hj]].
      simpl in Hj. inversion Hj; subst j.
      rewrite (sniffer_type_read o t Hnd_o Hex_o Hin _ _ _ _ Hobj).
      apply String.eqb_neq in Hne. now rewrite Hne. }
  destruct Hsel as [pt [HselT HselJ]].
  unfold UnmarshalJSON.
  destruct (unmarshalStruct false snifferNames setTypeSniffer "struct" (JObject o)
              zeroTypeSniffer) as [sniffed|e] eqn:Hsniff.
  2: { assert (HT : snd (UnmarshalTOML v (AMap d)) <> None).
       { pose proof (sniffer_error_switch "TOML unmarshal:" pt v o) as Hsw.
         rewrite Hsniff in Hsw. specialize (Hsw eq_refl).
         now rewrite (UnmarshalTOML_selected v d _ pt HselT Hm Hsw). }
       unfold sameOutcome.
       destruct (snd (UnmarshalTOML v (AMap d))); [exact I | now contradiction HT]. }
  assert (Hobj : object false snifferNames setTypeSniffer o zeroTypeSniffer None =
                 Ok (sniffed, None)).
  { unfold unmarshalStruct, structValue in Hsniff.
    destruct (object _ _ _ _ _ _) as [[s1 [e1|]]|]; try discriminate.
    now inversion Hsniff. }
  rewrite (HselJ _ _ Hobj), (UnmarshalTOML_unfold v d _ pt HselT Hm).
  destruct (switchPartType_prefix "TOML unmarshal:" "JSON unmarshal:" pt v (JObject o))
    as [Hfst Hsnd].
  destruct (switchPartType "TOML unmarshal:" pt v (JObject o)) as [vT [eT|]];
    destruct (switchPartType "JSON unmarshal:" pt v (JObject o)) as [vJ [eJ|]];
    simpl in Hfst, Hsnd.
  - exact I.
  - destruct Hsnd as [_ Hsnd]. discriminate (Hsnd eq_refl).
  - destruct Hsnd as [Hsnd _]. discriminate (Hsnd eq_refl).
  - subst vJ. destruct (lookup "minsize" d) as [m|] eqn:Hms.
    + destruct (Hsize m eq_refl) as [Hnil Hdec].
      destruct (Marshal_map_member d o "minsize" m Hm (lookup_In _ _ _ Hms))
        as [jm [Hin Hjm]].
      pose proof (sniffer_minsize_read o jm Hnd_o Hex_o Hin _ _ _ Hobj) as Hany.
      assert (Hnn : isNil (ts_MinSize sniffed) = false).
      { destruct (ts_MinSize sniffed); trivial.
        exfalso. apply Hnil, Marshal_null. rewrite Hjm. f_equal.
        now apply toAny_nil. }
      rewrite Hnn. simpl. rewrite (Hdec jm _ Hjm Hany).
      destruct (decodeSize m); unfold sameOutcome; simpl; trivial.
    + assert (Hnot : ~ In "minsize" (map fst o)).
      { intros Hin. apply (lookup_None _ _ Hms).
        now apply (Permutation_in _ Hperm). }
      destruct (sniffer_other_kept o "minsize" (or_intror (or_introl eq_refl))
                  Hnot Hex_o _ _ _ _ Hobj) as [_ Hmin].
      rewrite (Hmin eq_refl). reflexivity.
Qed.

(** *** Logical volumes *)

(** C7, as the code has it: [LVCustomization.UnmarshalJSON] decodes with
    [json.Unmarshal], which skips a member that is none of name, minsize,
    mountpoint, label and fs_type: the result is the one of the document
    without that member. *)
Theorem lv_unknown_field_ignored (lv : LVCustomization) (key : string)
    (j : json) (o1 o2 : list (string * json)) :
  findField lvNames key = None ->
  LVCustomization_UnmarshalJSON lv (JObject (o1 ++ (key, j) :: o2)) =
  LVCustomization_UnmarshalJSON lv (JObject (o1 ++ o2)).
Proof.
  intros Hnone. unfold LVCustomization_UnmarshalJSON, unmarshalStruct, structValue.
  now rewrite (object_lax_skip lvNames setLvAnySize key j o1 o2 Hnone).
Qed.

End Facts.

(** *** The statements on examples *)

Import Reference.


Lemma toml_empty_type_rejected_witness :
  UnmarshalTOML zeroPartition (AMap [("type", AString ""); ("mountpoint", AString "/")]) =
    (zeroPartition, Some (UnknownPartitionType "TOML unmarshal:" "")) /\
  UnmarshalJSON zeroPartition
    (JObject [("mountpoint", JString "/"); ("type", JString "")]) =
    (rootPlain, None).
Proof.
  split.
  - apply (toml_empty_type_rejected zeroPartition
             [("type", AString ""); ("mountpoint", AString "/")]
             (JObject [("mountpoint", JString "/"); ("type", JString "")]));
      reflexivity.
  - reflexivity.
Defined.

Lemma toml_input_checks_witness :
  UnmarshalTOML zeroPartition (AString "plain") =
    (zeroPartition, Some (NotAnObject "TOML unmarshal:")) /\
  UnmarshalTOML zeroPartition (AMap [("type", AInt64 3)]) =
    (zeroPartition, Some (TypeNotString "TOML unmarshal:" "int64")).
Proof.
  destruct (toml_input_checks zeroPartition) as [Hobj Htype].
  split.
  - apply Hobj. discriminate.
  - apply (Htype [("type", AInt64 3)] (AInt64 3)); [reflexivity | discriminate].
Defined.

Lemma foreign_field_rejected_witness :
  snd (UnmarshalJSON zeroPartition
         (JObject [("type", JString "plain"); ("mountpoint", JString "/");
                   ("logical_volumes", JArray [])])) <> None /\
  snd (UnmarshalTOML zeroPartition
         (AMap [("type", AString "lvm"); ("name", AString "vg");
                ("mountpoint", AString "/")])) <> None.
Proof.
  destruct (foreign_field_rejected zeroPartition) as [[Hplain Hlvm] Hrej].
  split.
  - apply (proj1 (Hrej "plain" "logical_volumes" Hplain)) with (j := JArray []).
    + reflexivity.
    + right; right; left; reflexivity.
  - apply (proj2 (Hrej "lvm" "mountpoint" Hlvm)) with (a := AString "/").
    + reflexivity.
    + right; right; left; reflexivity.
Defined.

Lemma lv_unknown_field_ignored_witness :
  LVCustomization_UnmarshalJSON zeroLV
    (JObject [("name", JString "home"); ("bogus", JBool true);
              ("mountpoint", JString "/home")]) =
  LVCustomization_UnmarshalJSON zeroLV
    (JObject [("name", JString "home"); ("mountpoint", JString "/home")]).
Proof.
  apply (lv_unknown_field_ignored zeroLV "bogus" (JBool true)
           [("name", JString "home")] [("mountpoint", JString "/home")]).
  reflexivity.
Defined.

Lemma toml_json_agree_witness :
  sameOutcome
    (UnmarshalTOML zeroPartition
       (AMap [("type", AString "plain"); ("mountpoint", AString "/");
              ("minsize", AInt64 1024)]))
    (UnmarshalJSON zeroPartition
       (JObject [("minsize", JNumber "1024"); ("mountpoint", JString "/");
                 ("type", JString "plain")])).
Proof.
  apply toml_json_agree.
  - repeat constructor; simpl; intuition discriminate.
  - right. exists "plain". split; [discriminate | reflexivity].
  - intros key f [<-|[<-|[<-|[]]]] Hf; vm_compute in Hf;
      try discriminate Hf; now inversion Hf.
  - intros m Hm. inversion Hm; subst m. split; [discriminate|].
    intros jm a Hj Ha. inversion Hj; subst jm.
    vm_compute in Ha. inversion Ha. reflexivity.
  - reflexivity.
Defined.

(** Against C6 as stated: a map whose only key is [Type], and a map whose
    [type] is the empty string, are decoded differently by the two entry
    points. *)
Lemma toml_json_disagree :
  (Marshal (AMap [("Type", AString "lvm")]) = Ok (JObject [("Type", JString "lvm")]) /\
   UnmarshalTOML zeroPartition (AMap [("Type", AString "lvm")]) =
     (setType zeroPartition "plain", None) /\
   UnmarshalJSON zeroPartition (JObject [("Type", JString "lvm")]) =
     (setType zeroPartition "lvm", None)) /\
  (Marshal (AMap [("type", AString ""); ("mountpoint", AString "/")]) =
     Ok (JObject [("mountpoint", JString "/"); ("type", JString "")]) /\
   UnmarshalTOML zeroPartition
     (AMap [("type", AString ""); ("mountpoint", AString "/")]) =
     (zeroPartition, Some (UnknownPartitionType "TOML unmarshal:" "")) /\
   UnmarshalJSON zeroPartition
     (JObject [("mountpoint", JString "/"); ("type", JString "")]) =
     (rootPlain, None)).
Proof. repeat split. Qed.

(** Against C7 as stated: a logical volume with a member [bogus] is
    decoded without error, on its own and inside an lvm partition. *)
Lemma lv_unknown_field_accepted :
  ~ In "bogus" ["name"; "minsize"; "mountpoint"; "label"; "fs_type"] /\
  LVCustomization_UnmarshalJSON zeroLV
    (JObject [("name", JString "home"); ("bogus", JBool true)]) =
    ({| lv_Name := "home"; lv_MinSize := 0;
        lv_FilesystemTypedCustomization := zeroFS |}, None) /\
  snd (UnmarshalJSON zeroPartition
         (JObject [("type", JString "lvm");
                   ("logical_volumes",
                    JArray [JObject [("name", JString "home");
                                     ("bogus", JBool true)]])])) = None.
Proof.
  split; [|split; reflexivity].
  simpl. intros [Hf|[Hf|[Hf|[Hf|[Hf|[]]]]]]; discriminate Hf.
Qed.

End BlueprintFacts.

(** ** More on the decoder: what a run leaves in the receiver *)

Module ReceiverFacts.
Import Json Blueprint JsonFacts BlueprintFacts BlueprintCodec.
Section Facts.
Context `{SizeDecoder}.

Lemma switchPartType_error errPrefix partType v data v' e :
  switchPartType errPrefix partType v data = (v', Some e) -> v' = v.
Proof.
  unfold switchPartType, decodePlain, decodeBtrfs, decodeLVM.
  destruct (String.eqb partType "plain");
    [destruct (unmarshalStruct _ _ _ _ _ _); intros Heq; now inversion Heq|].
  destruct (String.eqb partType "btrfs");
    [destruct (unmarshalStruct _ _ _ _ _ _); intros Heq; now inversion Heq|].
  destruct (String.eqb partType "lvm");
    [destruct (unmarshalStruct _ _ _ _ _ _); intros Heq; now inversion Heq|].
  intros Heq. now inversion Heq.
Qed.

(** A variant decoder writes the payload of its variant and nothing else. *)
Lemma switchPartType_success errPrefix partType v data v' :
  switchPartType errPrefix partType v data = (v', None) ->
  Type_ v' = Type_ v /\ MinSize v' = MinSize v /\
  ((partType = "plain" /\ BtrfsVolume v' = BtrfsVolume v /\ VG v' = VG v) \/
   (partType = "btrfs" /\ VG v' = VG v /\
    FilesystemTyped v' = FilesystemTyped v) \/
   (partType = "lvm" /\ BtrfsVolume v' = BtrfsVolume v /\
    FilesystemTyped v' = FilesystemTyped v)).
Proof.
  unfold switchPartType, decodePlain, decodeBtrfs, decodeLVM.
  destruct (String.eqb_spec partType "plain") as [->|_].
  { destruct (unmarshalStruct _ _ _ _ _ _); intros Heq; inversion Heq; subst.
    simpl. auto 10. }
  destruct (String.eqb_spec partType "btrfs") as [->|_].
  { destruct (unmarshalStruct _ _ _ _ _ _); intros Heq; inversion Heq; subst.
    simpl. auto 10. }
  destruct (String.eqb_spec partType "lvm") as [->|_].
  { destruct (unmarshalStruct _ _ _ _ _ _); intros Heq; inversion Heq; subst.
    simpl. auto 10. }
  discriminate.
Qed.

Lemma variantOnly_after v1 v' partType :
  Type_ v' = partType ->
  BtrfsVolume v' = BtrfsVolume v1 -> VG v' = VG v1 ->
  FilesystemTyped v' = FilesystemTyped v1 ->
  forall v,
    (partType = "plain" /\ BtrfsVolume v1 = BtrfsVolume v /\ VG v1 = VG v) \/
    (partType = "btrfs" /\ VG v1 = VG v /\
     FilesystemTyped v1 = FilesystemTyped v) \/
    (partType = "lvm" /\ BtrfsVolume v1 = BtrfsVolume v /\
     FilesystemTyped v1 = FilesystemTyped v) ->
    variantOnly v v'.
Proof.
  intros Ht Hb Hv Hf v Hcases. unfold variantOnly.
  rewrite Ht, Hb, Hv, Hf. exact Hcases.
Qed.

Lemma UnmarshalJSON_writes_variant (v v' : PartitionCustomization) (data : json) :
  UnmarshalJSON v data = (v', None) -> variantOnly v v'.
Proof.
  unfold UnmarshalJSON.
  destruct (unmarshalStruct _ _ _ _ _ _) as [sniffed|]; [|discriminate].
  set (partType := if negb (String.eqb (ts_Type sniffed) "") then ts_Type sniffed
                   else "plain").
  destruct (switchPartType "JSON unmarshal:" partType v data) as [v1 [e|]] eqn:Hsw;
    [discriminate|].
  apply switchPartType_success in Hsw as [_ [_ Hcases]].
  destruct (negb (isNil (ts_MinSize sniffed))).
  - destruct (decodeSize (ts_MinSize sniffed)); intros Heq; inversion Heq; subst.
    now apply (variantOnly_after v1 _ partType).
  - intros Heq; inversion Heq; subst. now apply (variantOnly_after v1 _ partType).
Qed.

(** X1: when [UnmarshalJSON] succeeds the type of the result is plain,
    btrfs or lvm, and the payloads of the two other variants are the ones
    the receiver had. *)
Theorem UnmarshalJSON_variant_only (v v' : PartitionCustomization) (data : json) :
  UnmarshalJSON v data = (v', None) -> variantOnly v v'.
Proof. apply UnmarshalJSON_writes_variant. Qed.

(** X2: the same for [UnmarshalTOML]. *)
Theorem UnmarshalTOML_variant_only (v v' : PartitionCustomization) (data : any) :
  UnmarshalTOML v data = (v', None) -> variantOnly v v'.
Proof.
  unfold UnmarshalTOML. destruct data as [| | | | | |d]; try discriminate.
  set (typed := match lookup "type" d with
                | Some (AString typeStr) => Ok typeStr
                | Some typeField =>
                    Err (TypeNotString "TOML unmarshal:" (goType typeField))
                | None => Ok "plain"
                end).
  destruct typed as [partType|]; [|discriminate].
  destruct (Marshal (AMap d)) as [dataJSON|]; [|discriminate].
  destruct (switchPartType "TOML unmarshal:" partType v dataJSON) as [v1 [e|]] eqn:Hsw;
    [discriminate|].
  apply switchPartType_success in Hsw as [_ [_ Hcases]].
  destruct (lookup "minsize" d) as [m|].
  - destruct (decodeSize m); intros Heq; inversion Heq; subst.
    now apply (variantOnly_after v1 _ partType).
  - intros Heq; inversion Heq; subst. now apply (variantOnly_after v1 _ partType).
Qed.

(** X3: when an entry point fails, [MinSize] of the receiver is what it
    was, and the whole receiver is unchanged unless the error is the one of
    [decodeSize] on [minsize]: then the type and the payload are already
    written. *)
Theorem receiver_on_error (v v' : PartitionCustomization) (e : error) :
  (forall data,
     UnmarshalJSON v data = (v', Some e) ->
     MinSize v' = MinSize v /\
     (v' = v \/
      exists err partType v1,
        e = MinSizeError "JSON unmarshal:" err /\
        switchPartType "JSON unmarshal:" partType v data = (v1, None) /\
        v' = setType v1 partType)) /\
  (forall d,
     UnmarshalTOML v (AMap d) = (v', Some e) ->
     MinSize v' = MinSize v /\
     (v' = v \/
      exists err partType dataJSON v1,
        e = MinSizeError "TOML unmarshal:" err /\
        Marshal (AMap d) = Ok dataJSON /\
        switchPartType "TOML unmarshal:" partType v dataJSON = (v1, None) /\
        v' = setType v1 partType)).
Proof.
  split.
  - intros data. unfold UnmarshalJSON.
    destruct (unmarshalStruct _ _ _ _ _ _) as [sniffed|];
      [|intros Heq; inversion Heq; auto].
    set (partType := if negb (String.eqb (ts_Type sniffed) "") then ts_Type sniffed
                     else "plain").
    destruct (switchPartType "JSON unmarshal:" partType v data) as [v1 [e1|]] eqn:Hsw.
    + intros Heq; inversion Heq; subst.
      apply switchPartType_error in Hsw. subst. auto.
    + destruct (negb (isNil (ts_MinSize sniffed))); [|discriminate].
      destruct (decodeSize (ts_MinSize sniffed)) as [n|err]; [discriminate|].
      intros Heq; inversion Heq; subst.
      pose proof (switchPartType_success _ _ _ _ _ Hsw) as [_ [Hm _]].
      split; [exact Hm|]. right. exists err, partType, v1. auto.
  - intros d. unfold UnmarshalTOML.
    set (typed := match lookup "type" d with
                  | Some (AString typeStr) => Ok typeStr
                  | Some typeField =>
                      Err (TypeNotString "TOML unmarshal:" (goType typeField))
                  | None => Ok "plain"
                  end).
    destruct typed as [partType|]; [|intros Heq; inversion Heq; auto].
    destruct (Marshal (AMap d)) as [dataJSON|] eqn:Hm;
      [|intros Heq; inversion Heq; auto].
    destruct (switchPartType "TOML unmarshal:" partType v dataJSON) as [v1 [e1|]]
      eqn:Hsw.
    + intros Heq; inversion Heq; subst.
      apply switchPartType_error in Hsw. subst. auto.
    + destruct (lookup "minsize" d) as [m|]; [|discriminate].
      destruct (decodeSize m) as [n|err]; [discriminate|].
      intros Heq; inversion Heq; subst.
      pose proof (switchPartType_success _ _ _ _ _ Hsw) as [_ [Hms _]].
      split; [exact Hms|]. right. exists err, partType, dataJSON, v1. auto.
Qed.

(** X4: a JSON value that is neither an object nor null is rejected by
    [UnmarshalJSON] with the receiver unchanged; null is accepted, as a
    plain partition whose filesystem members are all empty. *)
Theorem UnmarshalJSON_not_object (v : PartitionCustomization) :
  (forall data,
     (forall o, data <> JObject o) -> data <> JNull ->
     UnmarshalJSON v data =
     (v, Some (Wrap "JSON unmarshal:" (UnmarshalTypeError (kind data) "struct")))) /\
  UnmarshalJSON v JNull =
  ({| Type_ := "plain"; MinSize := MinSize v; BtrfsVolume := BtrfsVolume v;
      VG := VG v; FilesystemTyped := zeroFS |}, None).
Proof.
  split; [|reflexivity].
  intros data Hobj Hnull.
  destruct data; try reflexivity; [now contradiction Hnull | now contradiction (Hobj o)].
Qed.

End Facts.
End ReceiverFacts.

(** ** More on the decoder: well-formed documents *)

Module DocumentFacts.
Import Json Blueprint JsonFacts BlueprintFacts BlueprintCodec.
Section Facts.
Context `{SizeDecoder}.

Lemma lookup_absent {A} key (m : list (string * A)) :
  ~ In key (map fst m) -> lookup key m = None.
Proof.
  induction m as [|[k a] m IH]; simpl; [reflexivity|].
  intros Hnot. destruct (String.eqb_spec k key) as [->|_]; [tauto|].
  apply IH. tauto.
Qed.

Lemma In_lookup_nodup {A} key (a : A) m :
  NoDup (map fst m) -> In (key, a) m -> lookup key m = Some a.
Proof.
  induction m as [|[k b] m IH]; simpl; [contradiction|].
  intros Hnd [Heq|Hin].
  - inversion Heq; subst. now rewrite String.eqb_refl.
  - inversion Hnd as [|? ? Hk Hnd']; subst.
    destruct (String.eqb_spec k key) as [->|]; [|now apply IH].
    exfalso. apply Hk. apply in_map_iff. now exists (key, a).
Qed.

(** The sniffer succeeds when no member stored into [type] or [minsize]
    saves an error. *)
Lemma sniffer_succeeds o :
  (forall key j f, In (key, j) o -> findField snifferNames key = Some f ->
                   memberError f j = None) ->
  forall s, exists s',
    object false snifferNames setTypeSniffer o s None = Ok (s', None).
Proof.
  induction o as [|[key j] o IH]; intros Hok s; simpl; [eauto|].
  assert (Hok' : forall key j f, In (key, j) o ->
                   findField snifferNames key = Some f -> memberError f j = None).
  { intros k j' f Hin. apply Hok. now right. }
  destruct (findField snifferNames key) as [f|] eqn:Hf; [|now apply IH].
  destruct (setTypeSniffer_error f j s) as [s1 ->].
  rewrite (Hok key j f (or_introl eq_refl) Hf). simpl. now apply IH.
Qed.

Lemma plainMember_type j :
  plainMember "type" j -> exists t, j = JString t /\ (t = "plain" \/ t = "").
Proof.
  intros Hm. inversion Hm as [t Ht | | key s Hin]; subst; [eauto|].
  simpl in Hin. destruct Hin as [Hf|[Hf|[Hf|[]]]]; discriminate Hf.
Qed.

Lemma plainMember_minsize j :
  plainMember "minsize" j ->
  exists a n, toAny j = Ok a /\ isNil a = false /\ decodeSize a = Ok n.
Proof.
  intros Hm. inversion Hm as [| j' a n Ha Hn Hd | key s Hin]; subst; [eauto|].
  simpl in Hin. destruct Hin as [Hf|[Hf|[Hf|[]]]]; discriminate Hf.
Qed.

Lemma plainMember_exactKeys o :
  (forall key j, In (key, j) o -> plainMember key j) -> exactKeys (map fst o).
Proof.
  intros Hpm key f Hin Hf.
  apply in_map_iff in Hin as [[k j] [Hk Hin]]. simpl in Hk. subst k.
  destruct (Hpm key j Hin) as [t _ | j a n _ _ _ | key s Hfs].
  - vm_compute in Hf. now inversion Hf.
  - vm_compute in Hf. now inversion Hf.
  - simpl in Hfs. destruct Hfs as [<-|[<-|[<-|[]]]]; vm_compute in Hf;
      discriminate Hf.
Qed.

Lemma plainMember_sniffed o :
  (forall key j, In (key, j) o -> plainMember key j) ->
  forall key j f, In (key, j) o -> findField snifferNames key = Some f ->
                  memberError f j = None.
Proof.
  intros Hpm key j f Hin Hf.
  destruct (Hpm key j Hin) as [t _ | j a n Ha _ _ | key s Hfs].
  - vm_compute in Hf. inversion Hf. reflexivity.
  - vm_compute in Hf. inversion Hf. unfold memberError. simpl. now rewrite Ha.
  - simpl in Hfs. destruct Hfs as [<-|[<-|[<-|[]]]]; vm_compute in Hf;
      discriminate Hf.
Qed.

(** The strict decoder of [decodePlain] on a well-formed plain document. *)
Lemma plain_object o :
  NoDup (map fst o) ->
  (forall key j, In (key, j) o -> plainMember key j) ->
  forall s, exists s',
    object true plainNames setPlainDoc o s None = Ok (s', None) /\
    pd_FilesystemTypedCustomization s' =
    filesystemAt o (pd_FilesystemTypedCustomization s).
Proof.
  induction o as [|[key j] o IH]; intros Hnd Hpm s.
  - exists s. split; [reflexivity|].
    now destruct (pd_FilesystemTypedCustomization s).
  - simpl in Hnd. inversion Hnd as [|? ? Hkey Hnd']; subst.
    assert (Hpm' : forall key j, In (key, j) o -> plainMember key j).
    { intros k j' Hin. apply Hpm. now right. }
    pose proof (lookup_absent _ _ Hkey) as Habs.
    destruct (Hpm key j (or_introl eq_refl)) as [t _ | j a n Ha _ _ | key s0 Hfs].
    + destruct (IH Hnd' Hpm'
                  {| pd_Type := t; pd_MinSize := pd_MinSize s;
                     pd_FilesystemTypedCustomization :=
                       pd_FilesystemTypedCustomization s |}) as [s' [Hobj Hfs']].
      exists s'. split; [exact Hobj | exact Hfs'].
    + destruct (IH Hnd' Hpm'
                  {| pd_Type := pd_Type s; pd_MinSize := a;
                     pd_FilesystemTypedCustomization :=
                       pd_FilesystemTypedCustomization s |}) as [s' [Hobj Hfs']].
      exists s'. split; [|exact Hfs'].
      simpl. unfold setPlainDoc, storeAny. simpl. rewrite Ha. exact Hobj.
    + simpl in Hfs. destruct Hfs as [<-|[<-|[<-|[]]]].
      * destruct (IH Hnd' Hpm'
                    {| pd_Type := pd_Type s; pd_MinSize := pd_MinSize s;
                       pd_FilesystemTypedCustomization :=
                         {| Mountpoint := s0;
                            Label := Label (pd_FilesystemTypedCustomization s);
                            FSType := FSType (pd_FilesystemTypedCustomization s) |} |})
          as [s' [Hobj Hfs']].
        exists s'. split; [exact Hobj|]. rewrite Hfs'.
        unfold filesystemAt, stringAt. simpl. now rewrite Habs.
      * destruct (IH Hnd' Hpm'
                    {| pd_Type := pd_Type s; pd_MinSize := pd_MinSize s;
                       pd_FilesystemTypedCustomization :=
                         {| Mountpoint := Mountpoint (pd_FilesystemTypedCustomization s);
                            Label := s0;
                            FSType := FSType (pd_FilesystemTypedCustomization s) |} |})
          as [s' [Hobj Hfs']].
        exists s'. split; [exact Hobj|]. rewrite Hfs'.
        unfold filesystemAt, stringAt. simpl. now rewrite Habs.
      * destruct (IH Hnd' Hpm'
                    {| pd_Type := pd_Type s; pd_MinSize := pd_MinSize s;
                       pd_FilesystemTypedCustomization :=
                         {| Mountpoint := Mountpoint (pd_FilesystemTypedCustomization s);
                            Label := Label (pd_FilesystemTypedCustomization s);
                            FSType := s0 |} |})
          as [s' [Hobj Hfs']].
        exists s'. split; [exact Hobj|]. rewrite Hfs'.
        unfold filesystemAt, stringAt. simpl. now rewrite Habs.
Qed.

(** X5: a JSON object with distinct keys whose members are a [type] that
    is plain or empty, a [minsize] that [decodeSize] reads, and strings
    under [mountpoint], [label] and [fs_type], decodes without error to the
    plain partition with these strings and that size; members left out
    give the empty string, and the [MinSize] of the receiver. *)
Theorem plain_document_decoded (v : PartitionCustomization)
    (o : list (string * json)) :
  NoDup (map fst o) ->
  (forall key j, In (key, j) o -> plainMember key j) ->
  UnmarshalJSON v (JObject o) =
  ({| Type_ := "plain"; MinSize := sizeAt o (MinSize v);
      BtrfsVolume := BtrfsVolume v; VG := VG v;
      FilesystemTyped := filesystemAt o zeroFS |}, None).
Proof.
  intros Hnd Hpm.
  pose proof (plainMember_exactKeys o Hpm) as Hex.
  destruct (sniffer_succeeds o (plainMember_sniffed o Hpm) zeroTypeSniffer)
    as [sniffed Hobj].
  assert (Htype : (if negb (String.eqb (ts_Type sniffed) "") then ts_Type sniffed
                   else "plain") = "plain").
  { destruct (lookup "type" o) as [j|] eqn:Hl.
    - apply lookup_In in Hl.
      destruct (plainMember_type j (Hpm _ _ Hl)) as [t [-> Ht]].
      rewrite (sniffer_type_read o t Hnd Hex Hl _ _ _ _ Hobj).
      now destruct Ht as [-> | ->].
    - apply lookup_None in Hl.
      destruct (sniffer_other_kept o "type" (or_introl eq_refl) Hl Hex _ _ _ _ Hobj)
        as [Ht _].
      now rewrite (Ht eq_refl). }
  destruct (plain_object o Hnd Hpm zeroPlainDoc) as [plain [Hplain Hfs]].
  unfold UnmarshalJSON, unmarshalStruct, structValue. rewrite Hobj, Htype.
  unfold switchPartType, decodePlain, unmarshalStruct, structValue. simpl.
  rewrite Hplain, Hfs. unfold setType, setMinSize, sizeAt. simpl.
  destruct (lookup "minsize" o) as [j|] eqn:Hl.
  - pose proof (lookup_In _ _ _ Hl) as Hin.
    destruct (plainMember_minsize j (Hpm _ _ Hin)) as [a [n [Ha [Hn Hd]]]].
    pose proof (sniffer_minsize_read o j Hnd Hex Hin _ _ _ Hobj) as Hany.
    rewrite Ha in Hany. inversion Hany as [Hts]. rewrite <- Hts.
    rewrite Ha, Hn, Hd. reflexivity.
  - apply lookup_None in Hl.
    destruct (sniffer_other_kept o "minsize" (or_intror (or_introl eq_refl))
                Hl Hex _ _ _ _ Hobj) as [_ Hm].
    rewrite (Hm eq_refl). reflexivity.
Qed.

(** *** The other two variants *)

(** What the sniffer reads in a document whose members it can read, and
    what the end of [UnmarshalJSON] makes of it. *)
Lemma sniffed_document o :
  NoDup (map fst o) ->
  (forall key j, In (key, j) o -> sniffable key j) ->
  exists sniffed,
    unmarshalStruct false snifferNames setTypeSniffer "struct" (JObject o)
      zeroTypeSniffer = Ok sniffed /\
    ts_Type sniffed = stringAt "type" o "" /\
    forall v errPrefix,
      (if negb (isNil (ts_MinSize sniffed)) then
         match decodeSize (ts_MinSize sniffed) with
         | Err err => (v, Some (MinSizeError errPrefix err))
         | Ok minsize => (setMinSize v minsize, None)
         end
       else (v, None)) = (setMinSize v (sizeAt o (MinSize v)), None).
Proof.
  intros Hnd Hsn.
  assert (Hex : exactKeys (map fst o)).
  { intros key f Hin Hf.
    apply in_map_iff in Hin as [[k j] [Hk Hin]]. simpl in Hk. subst k.
    destruct (Hsn key j Hin) as [[-> _]|[[-> _]|Hnone]].
    - vm_compute in Hf. now inversion Hf.
    - vm_compute in Hf. now inversion Hf.
    - congruence. }
  assert (Hok : forall key j f, In (key, j) o ->
                  findField snifferNames key = Some f -> memberError f j = None).
  { intros key j f Hin Hf.
    destruct (Hsn key j Hin) as [[-> [t ->]]|[[-> [a [n [Ha _]]]]|Hnone]].
    - vm_compute in Hf. inversion Hf. reflexivity.
    - vm_compute in Hf. inversion Hf. unfold memberError. simpl. now rewrite Ha.
    - congruence. }
  destruct (sniffer_succeeds o Hok zeroTypeSniffer) as [sniffed Hobj].
  exists sniffed. unfold unmarshalStruct, structValue. rewrite Hobj.
  split; [reflexivity|]. split.
  - unfold stringAt. destruct (lookup "type" o) as [j|] eqn:Hl.
    + apply lookup_In in Hl.
      destruct (Hsn _ _ Hl) as [[_ [t ->]]|[[Hf _]|Hf]];
        [|discriminate Hf | vm_compute in Hf; discriminate Hf].
      apply (sniffer_type_read o t Hnd Hex Hl _ _ _ _ Hobj).
    + apply lookup_None in Hl.
      destruct (sniffer_other_kept o "type" (or_introl eq_refl) Hl Hex _ _ _ _ Hobj)
        as [Ht _].
      now rewrite (Ht eq_refl).
  - intros v errPrefix. unfold sizeAt.
    destruct (lookup "minsize" o) as [j|] eqn:Hl.
    + pose proof (lookup_In _ _ _ Hl) as Hin.
      destruct (Hsn _ _ Hin) as [[Hf _]|[[_ [a [n [Ha [Hn Hd]]]]]|Hf]];
        [discriminate Hf | | vm_compute in Hf; discriminate Hf].
      pose proof (sniffer_minsize_read o j Hnd Hex Hin _ _ _ Hobj) as Hany.
      rewrite Ha in Hany. inversion Hany as [Hts]. rewrite <- Hts.
      rewrite Ha, Hn, Hd. reflexivity.
    + apply lookup_None in Hl.
      destruct (sniffer_other_kept o "minsize" (or_intror (or_introl eq_refl))
                  Hl Hex _ _ _ _ Hobj) as [_ Hm].
      rewrite (Hm eq_refl). simpl. now destruct v.
Qed.

Lemma array_storeLV l :
  Forall (fun j => snd (LVCustomization_UnmarshalJSON zeroLV j) = None) l ->
  forall sv, array storeLV zeroLV l sv = Ok (decodedLVs l, sv).
Proof.
  induction 1 as [|j l Hj _ IH]; intros sv; simpl; [reflexivity|].
  unfold storeLV at 1.
  destruct (LVCustomization_UnmarshalJSON zeroLV j) as [lv' [e|]];
    [discriminate Hj|].
  rewrite IH. now destruct sv.
Qed.

Lemma lvmMember_sniffable key j : lvmMember key j -> sniffable key j.
Proof.
  intros [| j' a n Ha Hn Hd | s | l Hl]; unfold sniffable; eauto 10.
Qed.

(** The strict decoder of [decodeLVM] on a well-formed lvm document. *)
Lemma lvm_object o :
  NoDup (map fst o) ->
  (forall key j, In (key, j) o -> lvmMember key j) ->
  forall s, exists s',
    object true vgNames setVgDoc o s None = Ok (s', None) /\
    vd_VGCustomization s' = volumeGroupAt o (vd_VGCustomization s).
Proof.
  induction o as [|[key j] o IH]; intros Hnd Hm s.
  - exists s. split; [reflexivity|]. now destruct (vd_VGCustomization s).
  - simpl in Hnd. inversion Hnd as [|? ? Hkey Hnd']; subst.
    assert (Hm' : forall key j, In (key, j) o -> lvmMember key j).
    { intros k j' Hin. apply Hm. now right. }
    pose proof (lookup_absent _ _ Hkey) as Habs.
    destruct (Hm key j (or_introl eq_refl)) as [| j a n Ha _ _ | s0 | l Hl].
    + destruct (IH Hnd' Hm'
                  {| vd_Type := "lvm"; vd_MinSize := vd_MinSize s;
                     vd_VGCustomization := vd_VGCustomization s |})
        as [s' [Hobj Hvg]].
      exists s'. split; [exact Hobj | exact Hvg].
    + destruct (IH Hnd' Hm'
                  {| vd_Type := vd_Type s; vd_MinSize := a;
                     vd_VGCustomization := vd_VGCustomization s |})
        as [s' [Hobj Hvg]].
      exists s'. split; [|exact Hvg].
      simpl. unfold setVgDoc, storeAny. simpl. rewrite Ha. exact Hobj.
    + destruct (IH Hnd' Hm'
                  {| vd_Type := vd_Type s; vd_MinSize := vd_MinSize s;
                     vd_VGCustomization :=
                       {| Name := s0;
                          LogicalVolumes := LogicalVolumes (vd_VGCustomization s) |} |})
        as [s' [Hobj Hvg]].
      exists s'. split; [exact Hobj|]. rewrite Hvg.
      unfold volumeGroupAt, stringAt. simpl. now rewrite Habs.
    + destruct (IH Hnd' Hm'
                  {| vd_Type := vd_Type s; vd_MinSize := vd_MinSize s;
                     vd_VGCustomization :=
                       {| Name := Name (vd_VGCustomization s);
                          LogicalVolumes := decodedLVs l |} |})
        as [s' [Hobj Hvg]].
      exists s'. split.
      * simpl. unfold setVgDoc, storeSlice. simpl.
        rewrite (array_storeLV l Hl). exact Hobj.
      * rewrite Hvg. unfold volumeGroupAt, stringAt. simpl. now rewrite Habs.
Qed.

(** X13: a JSON object with distinct keys whose members are the [type]
    lvm, a [minsize] that [decodeSize] reads, a string under [name] and
    under [logical_volumes] an array of documents that
    [LVCustomization.UnmarshalJSON] accepts, decodes without error to the
    volume group of that name with these logical volumes, in the order of
    the array. *)
Theorem lvm_document_decoded (v : PartitionCustomization)
    (o : list (string * json)) :
  NoDup (map fst o) ->
  (forall key j, In (key, j) o -> lvmMember key j) ->
  In ("type", JString "lvm") o ->
  UnmarshalJSON v (JObject o) =
  ({| Type_ := "lvm"; MinSize := sizeAt o (MinSize v);
      BtrfsVolume := BtrfsVolume v; VG := volumeGroupAt o zeroVG;
      FilesystemTyped := FilesystemTyped v |}, None).
Proof.
  intros Hnd Hm Htype.
  destruct (sniffed_document o Hnd (fun key j Hin => lvmMember_sniffable _ _ (Hm key j Hin)))
    as [sniffed [Hsniff [Ht Htail]]].
  destruct (lvm_object o Hnd Hm zeroVgDoc) as [vg [Hvg Hat]].
  unfold UnmarshalJSON. rewrite Hsniff, Ht.
  unfold stringAt. rewrite (In_lookup_nodup _ _ _ Hnd Htype). simpl.
  unfold switchPartType, decodeLVM, unmarshalStruct, structValue. simpl.
  rewrite Hvg, Hat, Htail. reflexivity.
Qed.

Lemma subvolume_object os :
  NoDup (map fst os) ->
  (forall key j, In (key, j) os -> subvolumeMember key j) ->
  forall s,
    object true subvolumeNames setSubvolume os s None =
    Ok ({| sv_Name := stringAt "name" os (sv_Name s);
           sv_Mountpoint := stringAt "mountpoint" os (sv_Mountpoint s) |}, None).
Proof.
  induction os as [|[key j] os IH]; intros Hnd Hm s.
  - now destruct s.
  - simpl in Hnd. inversion Hnd as [|? ? Hkey Hnd']; subst.
    assert (Hm' : forall key j, In (key, j) os -> subvolumeMember key j).
    { intros k j' Hin. apply Hm. now right. }
    pose proof (lookup_absent _ _ Hkey) as Habs.
    destruct (Hm key j (or_introl eq_refl)) as [s0 | s0]; simpl;
      rewrite (IH Hnd' Hm'); unfold stringAt; simpl; now rewrite Habs.
Qed.

Lemma array_subvolumes l :
  Forall subvolumeDoc l ->
  forall sv,
    array (structValue true subvolumeNames setSubvolume "struct") zeroSubvolume l sv =
    Ok (map subvolumeAt l, sv).
Proof.
  induction 1 as [|j l [os [-> [Hnd Hm]]] _ IH]; intros sv; simpl; [reflexivity|].
  rewrite (subvolume_object os Hnd Hm zeroSubvolume). simpl.
  rewrite IH. now destruct sv.
Qed.

Lemma btrfsMember_sniffable key j : btrfsMember key j -> sniffable key j.
Proof.
  intros [| j' a n Ha Hn Hd | l Hl]; unfold sniffable; eauto 10.
Qed.

(** The strict decoder of [decodeBtrfs] on a well-formed btrfs document. *)
Lemma btrfs_object o :
  NoDup (map fst o) ->
  (forall key j, In (key, j) o -> btrfsMember key j) ->
  forall s, exists s',
    object true btrfsNames (setBtrfsDoc true) o s None = Ok (s', None) /\
    bd_BtrfsVolumeCustomization s' = btrfsVolumeAt o (bd_BtrfsVolumeCustomization s).
Proof.
  induction o as [|[key j] o IH]; intros Hnd Hm s.
  - exists s. split; [reflexivity|]. now destruct (bd_BtrfsVolumeCustomization s).
  - simpl in Hnd. inversion Hnd as [|? ? Hkey Hnd']; subst.
    assert (Hm' : forall key j, In (key, j) o -> btrfsMember key j).
    { intros k j' Hin. apply Hm. now right. }
    pose proof (lookup_absent _ _ Hkey) as Habs.
    destruct (Hm key j (or_introl eq_refl)) as [| j a n Ha _ _ | l Hl].
    + destruct (IH Hnd' Hm'
                  {| bd_Type := "btrfs"; bd_MinSize := bd_MinSize s;
                     bd_BtrfsVolumeCustomization := bd_BtrfsVolumeCustomization s |})
        as [s' [Hobj Hb]].
      exists s'. split; [exact Hobj | exact Hb].
    + destruct (IH Hnd' Hm'
                  {| bd_Type := bd_Type s; bd_MinSize := a;
                     bd_BtrfsVolumeCustomization := bd_BtrfsVolumeCustomization s |})
        as [s' [Hobj Hb]].
      exists s'. split; [|exact Hb].
      simpl. unfold setBtrfsDoc, storeAny. simpl. rewrite Ha. exact Hobj.
    + destruct (IH Hnd' Hm'
                  {| bd_Type := bd_Type s; bd_MinSize := bd_MinSize s;
                     bd_BtrfsVolumeCustomization :=
                       {| Subvolumes := map subvolumeAt l |} |})
        as [s' [Hobj Hb]].
      exists s'. split.
      * change (findField btrfsNames "subvolumes") with (Some "Subvolumes") in *.
        simpl. unfold setBtrfsDoc, storeSlice. simpl.
        rewrite (array_subvolumes l Hl). exact Hobj.
      * rewrite Hb. unfold btrfsVolumeAt. simpl. now rewrite Habs.
Qed.

(** X14: a JSON object with distinct keys whose members are the [type]
    btrfs, a [minsize] that [decodeSize] reads, and under [subvolumes] an
    array of objects with strings under [name] and [mountpoint], decodes
    without error to the btrfs volume with these subvolumes, in the order
    of the array. *)
Theorem btrfs_document_decoded (v : PartitionCustomization)
    (o : list (string * json)) :
  NoDup (map fst o) ->
  (forall key j, In (key, j) o -> btrfsMember key j) ->
  In ("type", JString "btrfs") o ->
  UnmarshalJSON v (JObject o) =
  ({| Type_ := "btrfs"; MinSize := sizeAt o (MinSize v);
      BtrfsVolume := btrfsVolumeAt o zeroBtrfs; VG := VG v;
      FilesystemTyped := FilesystemTyped v |}, None).
Proof.
  intros Hnd Hm Htype.
  destruct (sniffed_document o Hnd
              (fun key j Hin => btrfsMember_sniffable _ _ (Hm key j Hin)))
    as [sniffed [Hsniff [Ht Htail]]].
  destruct (btrfs_object o Hnd Hm zeroBtrfsDoc) as [b [Hb Hat]].
  unfold UnmarshalJSON. rewrite Hsniff, Ht.
  unfold stringAt. rewrite (In_lookup_nodup _ _ _ Hnd Htype). simpl.
  unfold switchPartType, decodeBtrfs, unmarshalStruct, structValue. simpl.
  rewrite Hb, Hat, Htail. reflexivity.
Qed.

End Facts.
End DocumentFacts.

(** ** More on the decoder: lists of volumes and of partitions *)

Module SliceFacts.
Import Json Blueprint JsonFacts BlueprintFacts BlueprintCodec ReceiverFacts.
Section Facts.
Context `{SizeDecoder}.

(** A member whose decoder returns an error ends the decoding of the
    object with an error. *)
Lemma object_member_err {S} strict names (set : string -> store S) o key j f :
  In (key, j) o -> findField names key = Some f ->
  (forall s, exists e, set f j s = Err e) ->
  forall s sv, exists e, object strict names set o s sv = Err e.
Proof.
  intros Hin Hf Herr. induction o as [|[key' j'] o IH]; [contradiction|].
  intros s sv. simpl. destruct Hin as [Heq|Hin].
  - inversion Heq; subst. rewrite Hf. destruct (Herr s) as [e ->]. eauto.
  - destruct (findField names key') as [g|]; [|now apply IH].
    destruct (set g j' s) as [[s' e']|e]; [now apply IH | eauto].
Qed.

Lemma array_elem_err {E} (elem : store E) zero l j :
  In j l -> (exists e, elem j zero = Err e) ->
  forall sv, exists e, array elem zero l sv = Err e.
Proof.
  intros Hin Herr. induction l as [|j' l IH]; [contradiction|].
  intros sv. simpl. destruct Hin as [->|Hin].
  - destruct Herr as [e ->]. eauto.
  - destruct (elem j' zero) as [[x e']|e]; [|eauto].
    destruct (IH Hin (saveError sv e')) as [e ->]. eauto.
Qed.

(** What [d.array] returns when no element returns an error. *)
Lemma array_Ok {E} (elem : store E) zero l :
  forall sv xs sv',
    array elem zero l sv = Ok (xs, sv') ->
    Forall2 (fun j x => exists e, elem j zero = Ok (x, e)) l xs.
Proof.
  induction l as [|j l IH]; intros sv xs sv'; simpl.
  - intros Heq. inversion Heq. constructor.
  - destruct (elem j zero) as [[x e]|] eqn:Hel; [|discriminate].
    destruct (array elem zero l (saveError sv e)) as [[xs' sv1]|] eqn:Harr;
      [|discriminate].
    intros Heq. inversion Heq; subst. constructor; [now exists e|].
    now apply (IH _ _ _ Harr).
Qed.

Lemma UnmarshalJSON_sniffer_error v data :
  selectedTypeJSON data = None -> snd (UnmarshalJSON v data) <> None.
Proof.
  unfold selectedTypeJSON, UnmarshalJSON.
  destruct (unmarshalStruct _ _ _ _ _ _) as [sniffed|]; [discriminate|].
  simpl. congruence.
Qed.

(** X6: a document of type lvm is rejected by [UnmarshalJSON] as soon as
    one element of an array under [logical_volumes] is rejected by
    [LVCustomization.UnmarshalJSON]. *)
Theorem lvm_bad_volume (v : PartitionCustomization) (o : list (string * json))
    (key : string) (l : list json) (j : json) :
  selectedTypeJSON (JObject o) = Some "lvm" ->
  In (key, JArray l) o ->
  findField vgNames key = Some "logical_volumes" ->
  In j l ->
  snd (LVCustomization_UnmarshalJSON zeroLV j) <> None ->
  snd (UnmarshalJSON v (JObject o)) <> None.
Proof.
  intros Hsel Hin Hf Hj Herr.
  assert (Hsw : snd (switchPartType "JSON unmarshal:" "lvm" v (JObject o)) <> None).
  { unfold switchPartType, decodeLVM, unmarshalStruct, structValue. simpl.
    destruct (object_member_err true vgNames setVgDoc o key (JArray l)
                "logical_volumes" Hin Hf) with (s := zeroVgDoc) (sv := @None error)
      as [e ->]; [|simpl; congruence].
    intros s. unfold setVgDoc, storeSlice. simpl.
    destruct (array_elem_err storeLV zeroLV l j Hj) with (sv := @None error)
      as [e ->]; [|eauto].
    unfold storeLV.
    destruct (LVCustomization_UnmarshalJSON zeroLV j) as [lv' [e|]];
      [eauto | now contradiction Herr]. }
  now rewrite (UnmarshalJSON_selected v _ "lvm" Hsel Hsw).
Qed.

(** X9: when the array of partitions of a disk is decoded without error,
    no error was saved on the way, every partition is what [UnmarshalJSON]
    makes of its element from the zero value, and so has only the payload
    of its type set; and one element that [UnmarshalJSON] rejects makes
    the decoding of the array fail. *)
Theorem partitions_decoded (l : list json) :
  (forall ps saved,
     decodePartitions l = Ok (ps, saved) ->
     saved = None /\
     Forall2 (fun j p => UnmarshalJSON zeroPartition j = (p, None)) l ps /\
     Forall (variantOnly zeroPartition) ps) /\
  (forall j,
     In j l -> snd (UnmarshalJSON zeroPartition j) <> None ->
     isErr (decodePartitions l) = true).
Proof.
  split.
  - unfold decodePartitions. intros ps saved Harr.
    assert (Hsaved : forall l sv xs sv',
              array storePartition zeroPartition l sv = Ok (xs, sv') -> sv' = sv).
    { clear. induction l as [|j l IH]; intros sv xs sv'; simpl.
      - intros Heq. now inversion Heq.
      - unfold storePartition at 1.
        destruct (UnmarshalJSON zeroPartition j) as [p [e|]]; [discriminate|].
        destruct (array storePartition zeroPartition l (saveError sv None))
          as [[xs' sv1]|] eqn:Harr; [|discriminate].
        intros Heq. inversion Heq; subst.
        rewrite (IH _ _ _ Harr). now destruct sv. }
    split; [now apply (Hsaved _ _ _ _ Harr)|].
    apply array_Ok in Harr.
    assert (Hall : Forall2 (fun j p => UnmarshalJSON zeroPartition j = (p, None)) l ps).
    { induction Harr as [|j p l ps [e Hel] _ IH]; constructor; trivial.
      unfold storePartition in Hel.
      destruct (UnmarshalJSON zeroPartition j) as [p' [e'|]]; [discriminate|].
      now inversion Hel. }
    split; [exact Hall|].
    clear Harr. induction Hall as [|j p l ps Hel _ IH]; constructor; trivial.
    now apply UnmarshalJSON_writes_variant with j.
  - intros j Hin Herr. unfold decodePartitions.
    destruct (array_elem_err storePartition zeroPartition l j Hin)
      with (sv := @None error) as [e ->]; [|reflexivity].
    unfold storePartition.
    destruct (UnmarshalJSON zeroPartition j) as [p [e|]];
      [eauto | now contradiction Herr].
Qed.

End Facts.
End SliceFacts.

(** ** Encoding, then decoding *)

Module CodecFacts.
Import Json Blueprint JsonFacts BlueprintFacts BlueprintCodec SliceFacts.
Section Facts.
Context `{SizeDecoder} `{GoUTF8}.

(** X7: what [json.Marshal] writes for a [PartitionCustomization] is never
    accepted by [UnmarshalJSON]: the members [Subvolumes], [name] and
    [mountpoint] are always written, and each of the three variant decoders
    rejects one of them. *)
Theorem marshalPartition_rejected (v pc : PartitionCustomization) :
  snd (UnmarshalJSON v (marshalPartition pc)) <> None.
Proof.
  unfold marshalPartition.
  set (o := _ ++ _ ++ _).
  assert (Hsub : exists j, In ("Subvolumes", j) o)
    by (eexists; right; right; left; reflexivity).
  assert (Hname : exists j, In ("name", j) o)
    by (eexists; right; right; right; left; reflexivity).
  assert (Hmp : exists j, In ("mountpoint", j) o).
  { eexists. unfold o. apply in_or_app. right. apply in_or_app. right.
    left. reflexivity. }
  destruct (selectedTypeJSON (JObject o)) as [partType|] eqn:Hsel;
    [|now apply UnmarshalJSON_sniffer_error].
  assert (Hsw : snd (switchPartType "JSON unmarshal:" partType v (JObject o)) <> None).
  { destruct Hsub as [js Hsub], Hname as [jn Hname], Hmp as [jm Hmp].
    destruct (String.eqb partType "plain") eqn:Hplain.
    { apply (switchPartType_strict _ _ _ _ "Subvolumes" js Hsub).
      unfold variantNames. now rewrite Hplain. }
    destruct (String.eqb partType "btrfs") eqn:Hbtrfs.
    { apply (switchPartType_strict _ _ _ _ "name" jn Hname).
      unfold variantNames. now rewrite Hplain, Hbtrfs. }
    apply (switchPartType_strict _ _ _ _ "mountpoint" jm Hmp).
    unfold variantNames. rewrite Hplain, Hbtrfs.
    now destruct (String.eqb partType "lvm"). }
  now rewrite (UnmarshalJSON_selected v _ partType Hsel Hsw).
Qed.

(** X8: a logical volume whose strings are valid UTF-8, and whose
    [MinSize] is zero or is read back by [decodeSize] from the float64 of
    its decimal form, is encoded by [json.Marshal] to a document that
    [LVCustomization.UnmarshalJSON] decodes, from the zero value, to that
    same logical volume. *)
Theorem lv_round_trip (lv : LVCustomization) :
  toValidUTF8 (lv_Name lv) = lv_Name lv ->
  toValidUTF8 (Mountpoint (lv_FilesystemTypedCustomization lv)) =
    Mountpoint (lv_FilesystemTypedCustomization lv) ->
  toValidUTF8 (Label (lv_FilesystemTypedCustomization lv)) =
    Label (lv_FilesystemTypedCustomization lv) ->
  toValidUTF8 (FSType (lv_FilesystemTypedCustomization lv)) =
    FSType (lv_FilesystemTypedCustomization lv) ->
  (lv_MinSize lv = 0%N \/
   exists f, parseFloat (formatInt (Z.of_N (lv_MinSize lv))) = Some f /\
             decodeSize (AFloat64 f) = Ok (lv_MinSize lv)) ->
  LVCustomization_UnmarshalJSON zeroLV (marshalLV lv) = (lv, None).
Proof.
  destruct lv as [name ms [mp lb ft]]. simpl.
  intros Hname Hmp Hlb Hft Hms.
  unfold marshalLV, marshalFilesystemTyped, omitempty, isEmptyString,
    marshalString, marshalUint64. simpl.
  rewrite Hname, Hmp, Hlb, Hft.
  unfold LVCustomization_UnmarshalJSON, unmarshalStruct, structValue.
  destruct (String.eqb_spec name "") as [->|_];
    destruct (String.eqb_spec lb "") as [->|_];
    destruct (String.eqb_spec ft "") as [->|_];
    destruct (N.eqb_spec ms 0) as [->|Hnz];
    try (simpl; reflexivity);
    (destruct Hms as [Hz|[f [Hparse Hsize]]]; [now contradiction Hnz|]);
    simpl; unfold setLvAnySize, storeAny; simpl; rewrite Hparse; simpl;
    rewrite Hsize; reflexivity.
Qed.

End Facts.
End CodecFacts.

(** ** SBOM documents *)

Module SbomFacts.
Import Sbom.
Section Facts.
Variable spdxDocument : Type.
Variable libError : Type.
Variable spdx_json_Read : string -> option spdxDocument * option libError.
Variable spdx_json_Write :
  option spdxDocument -> string -> bool -> string * option libError.
Variable spdxTypeName : string.

(** X10: [newDocument] accepts exactly the values of type [*spdx.Document];
    on a document it returns, [ToSpdxDocument] and [ToSpdxJSON] do not
    panic: the first returns the very document given, the second writes
    it. *)
Theorem newDocument_conversions (d : iface spdxDocument) :
  (forall p, d = ISpdx p ->
     exists doc,
       newDocument (libError := libError) spdxTypeName d = (Some doc, None) /\
       ToSpdxDocument (libError := libError) spdxTypeName doc = Return (p, None) /\
       ToSpdxJSON spdx_json_Write spdxTypeName doc =
         Return (writeSpdx spdx_json_Write p)) /\
  ((forall p, d <> ISpdx p) ->
     newDocument (libError := libError) spdxTypeName d =
     (None, Some (UnsupportedDocumentType (ifaceType spdxTypeName d)))).
Proof.
  split.
  - intros p ->. eexists. repeat split; reflexivity.
  - intros Hnot. destruct d; try reflexivity. now contradiction (Hnot p).
Qed.

(** X11: [NewDocumentFromSpdxJSON] fails exactly when the reader fails, and
    then with the error of the reader wrapped; when it succeeds,
    [ToSpdxDocument] returns the document the reader returned and
    [ToSpdxJSON] writes that document, both without panic. *)
Theorem NewDocumentFromSpdxJSON_round_trip (data : string) :
  (forall err,
     snd (spdx_json_Read data) = Some err ->
     NewDocumentFromSpdxJSON spdx_json_Read spdxTypeName data =
     (None, Some (ReadFailed err))) /\
  (snd (spdx_json_Read data) = None ->
     exists doc,
       NewDocumentFromSpdxJSON spdx_json_Read spdxTypeName data =
         (Some doc, None) /\
       ToSpdxDocument (libError := libError) spdxTypeName doc =
         Return (fst (spdx_json_Read data), None) /\
       ToSpdxJSON spdx_json_Write spdxTypeName doc =
         Return (writeSpdx spdx_json_Write (fst (spdx_json_Read data)))).
Proof.
  unfold NewDocumentFromSpdxJSON.
  destruct (spdx_json_Read data) as [p [e|]]; simpl; split.
  - intros err Heq. now inversion Heq.
  - discriminate.
  - discriminate.
  - intros _. eexists. repeat split; reflexivity.
Qed.

(** X12: on any [Document], [ToSpdxDocument] and [ToSpdxJSON] panic exactly
    when the type of the document is [StandardTypeSpdx] and it does not
    hold a [*spdx.Document]; with another type they return the
    not-supported error, and [ToSpdxJSON] has written nothing. *)
Theorem conversions_panic (d : Document spdxDocument) :
  ((exists msg, ToSpdxDocument (libError := libError) spdxTypeName d = Panic msg) <->
   docType d = StandardTypeSpdx /\ forall p, document d <> ISpdx p) /\
  ((exists msg, ToSpdxJSON spdx_json_Write spdxTypeName d = Panic msg) <->
   docType d = StandardTypeSpdx /\ forall p, document d <> ISpdx p) /\
  (docType d <> StandardTypeSpdx ->
   ToSpdxDocument (libError := libError) spdxTypeName d =
     Return (None, Some (ConversionNotSupported "SPDX document"
                           (formatStandardType (docType d)))) /\
   ToSpdxJSON spdx_json_Write spdxTypeName d =
     Return ("", Some (ConversionNotSupported "SPDX JSON"
                         (formatStandardType (docType d))))).
Proof.
  destruct d as [t doc]. unfold ToSpdxDocument, ToSpdxJSON. simpl.
  destruct (N.eqb_spec t StandardTypeSpdx) as [->|Hne].
  - split; [|split]; [| |intros Hc; now contradiction Hc].
    + destruct doc; simpl; split.
      * intros _. split; [reflexivity | discriminate].
      * eauto.
      * intros [msg Hf]. discriminate Hf.
      * intros [_ Hnot]. now contradiction (Hnot p).
      * intros _. split; [reflexivity | discriminate].
      * eauto.
    + destruct doc; simpl; split.
      * intros _. split; [reflexivity | discriminate].
      * eauto.
      * intros [msg Hf]. discriminate Hf.
      * intros [_ Hnot]. now contradiction (Hnot p).
      * intros _. split; [reflexivity | discriminate].
      * eauto.
  - split; [|split]; [| |intros _; split; reflexivity].
    + split; [intros [msg Hf]; discriminate Hf | intros [Heq _]; contradiction].
    + split; [intros [msg Hf]; discriminate Hf | intros [Heq _]; contradiction].
Qed.

End Facts.
End SbomFacts.

(** ** The statements above on examples *)

Module MoreExamples.
Import Json Blueprint BlueprintCodec Reference ReferenceCodec Sbom.
Import ReceiverFacts DocumentFacts SliceFacts CodecFacts SbomFacts.

Lemma UnmarshalJSON_variant_only_witness :
  variantOnly zeroPartition
    (fst (UnmarshalJSON zeroPartition
            (JObject [("type", JString "lvm"); ("name", JString "vg")]))).
Proof.
  apply (UnmarshalJSON_variant_only zeroPartition _
           (JObject [("type", JString "lvm"); ("name", JString "vg")])).
  reflexivity.
Defined.

Lemma UnmarshalTOML_variant_only_witness :
  variantOnly zeroPartition
    (fst (UnmarshalTOML zeroPartition
            (AMap [("type", AString "btrfs");
                   ("subvolumes",
                    ASlice [AMap [("name", AString "root");
                                  ("mountpoint", AString "/")]])]))).
Proof.
  apply (UnmarshalTOML_variant_only zeroPartition _
           (AMap [("type", AString "btrfs");
                  ("subvolumes",
                   ASlice [AMap [("name", AString "root");
                                 ("mountpoint", AString "/")]])])).
  reflexivity.
Defined.

Lemma receiver_on_error_witness :
  UnmarshalJSON zeroPartition
    (JObject [("mountpoint", JString "/"); ("minsize", JString "ten")]) =
    (rootPlain,
     Some (MinSizeError "JSON unmarshal:" (SizeError "failed to parse size"))) /\
  MinSize rootPlain = MinSize zeroPartition.
Proof.
  split; [reflexivity|].
  apply (proj1 (receiver_on_error zeroPartition rootPlain
                  (MinSizeError "JSON unmarshal:" (SizeError "failed to parse size")))
           (JObject [("mountpoint", JString "/"); ("minsize", JString "ten")])).
  reflexivity.
Defined.

Lemma UnmarshalJSON_not_object_witness :
  UnmarshalJSON zeroPartition (JArray []) =
  (zeroPartition,
   Some (Wrap "JSON unmarshal:" (UnmarshalTypeError "array" "struct"))).
Proof.
  apply (proj1 (UnmarshalJSON_not_object zeroPartition) (JArray []));
    discriminate.
Defined.

Lemma plain_document_decoded_witness :
  UnmarshalJSON zeroPartition
    (JObject [("mountpoint", JString "/"); ("minsize", JString "1024");
              ("label", JString "root")]) =
  ({| Type_ := "plain"; MinSize := 1024; BtrfsVolume := zeroBtrfs; VG := zeroVG;
      FilesystemTyped := {| Mountpoint := "/"; Label := "root"; FSType := "" |} |},
   None).
Proof.
  refine (eq_trans
            (plain_document_decoded zeroPartition
               [("mountpoint", JString "/"); ("minsize", JString "1024");
                ("label", JString "root")] _ _) _).
  - repeat constructor; simpl; intuition discriminate.
  - intros key j [Heq|[Heq|[Heq|[]]]]; inversion Heq; subst.
    + apply plain_filesystem. left. reflexivity.
    + apply (plain_minsize _ (AString "1024") 1024%N); reflexivity.
    + apply plain_filesystem. right. left. reflexivity.
  - reflexivity.
Defined.

Lemma lvm_document_decoded_witness :
  UnmarshalJSON zeroPartition
    (JObject [("type", JString "lvm"); ("name", JString "vg0");
              ("logical_volumes",
               JArray [JObject [("name", JString "home");
                                ("mountpoint", JString "/home");
                                ("minsize", JString "1024")]])]) =
  ({| Type_ := "lvm"; MinSize := 0; BtrfsVolume := zeroBtrfs;
      VG := {| Name := "vg0";
               LogicalVolumes :=
                 [{| lv_Name := "home"; lv_MinSize := 1024;
                     lv_FilesystemTypedCustomization :=
                       {| Mountpoint := "/home"; Label := ""; FSType := "" |} |}] |};
      FilesystemTyped := zeroFS |}, None).
Proof.
  refine (eq_trans
            (lvm_document_decoded zeroPartition
               [("type", JString "lvm"); ("name", JString "vg0");
                ("logical_volumes",
                 JArray [JObject [("name", JString "home");
                                  ("mountpoint", JString "/home");
                                  ("minsize", JString "1024")]])] _ _ _) _).
  - repeat constructor; simpl; intuition discriminate.
  - intros key j [Heq|[Heq|[Heq|[]]]]; inversion Heq; subst.
    + apply lvm_type.
    + apply lvm_name.
    + apply lvm_volumes. repeat constructor.
  - left. reflexivity.
  - reflexivity.
Defined.

Lemma btrfs_document_decoded_witness :
  UnmarshalJSON zeroPartition
    (JObject [("type", JString "btrfs");
              ("subvolumes",
               JArray [JObject [("name", JString "root");
                                ("mountpoint", JString "/")]])]) =
  ({| Type_ := "btrfs"; MinSize := 0;
      BtrfsVolume :=
        {| Subvolumes := [{| sv_Name := "root"; sv_Mountpoint := "/" |}] |};
      VG := zeroVG; FilesystemTyped := zeroFS |}, None).
Proof.
  refine (eq_trans
            (btrfs_document_decoded zeroPartition
               [("type", JString "btrfs");
                ("subvolumes",
                 JArray [JObject [("name", JString "root");
                                  ("mountpoint", JString "/")]])] _ _ _) _).
  - repeat constructor; simpl; intuition discriminate.
  - intros key j [Heq|[Heq|[]]]; inversion Heq; subst.
    + apply btrfs_type.
    + apply btrfs_subvolumes. repeat constructor.
      exists [("name", JString "root"); ("mountpoint", JString "/")].
      split; [reflexivity|]. split.
      * repeat constructor; simpl; intuition discriminate.
      * intros k j' [Hk|[Hk|[]]]; inversion Hk; subst; constructor.
  - left. reflexivity.
  - reflexivity.
Defined.

Lemma lvm_bad_volume_witness :
  snd (UnmarshalJSON zeroPartition
         (JObject [("type", JString "lvm");
                   ("logical_volumes",
                    JArray [JObject [("name", JString "home");
                                     ("minsize", JString "ten")]])])) <> None.
Proof.
  apply (lvm_bad_volume zeroPartition _ "logical_volumes"
           [JObject [("name", JString "home"); ("minsize", JString "ten")]]
           (JObject [("name", JString "home"); ("minsize", JString "ten")])).
  - reflexivity.
  - right. left. reflexivity.
  - reflexivity.
  - left. reflexivity.
  - vm_compute. discriminate.
Defined.

Lemma lv_round_trip_witness :
  LVCustomization_UnmarshalJSON zeroLV
    (marshalLV {| lv_Name := "home"; lv_MinSize := 1024;
                  lv_FilesystemTypedCustomization :=
                    {| Mountpoint := "/home"; Label := ""; FSType := "xfs" |} |}) =
  ({| lv_Name := "home"; lv_MinSize := 1024;
      lv_FilesystemTypedCustomization :=
        {| Mountpoint := "/home"; Label := ""; FSType := "xfs" |} |}, None).
Proof.
  apply lv_round_trip; try reflexivity.
  right. exists (F 1024). split; reflexivity.
Defined.

Lemma partitions_decoded_witness :
  Forall (variantOnly zeroPartition)
    [rootPlain; setType zeroPartition "lvm"].
Proof.
  apply (proj1 (partitions_decoded
                  [JObject [("mountpoint", JString "/")];
                   JObject [("type", JString "lvm")]])
           [rootPlain; setType zeroPartition "lvm"] None).
  reflexivity.
Defined.

Lemma newDocument_conversions_witness :
  exists doc,
    newDocument (libError := string) "*v2_3.Document" (ISpdx (Some "{}")) =
      (Some doc, None) /\
    ToSpdxDocument (libError := string) "*v2_3.Document" doc =
      Return (Some "{}", None) /\
    ToSpdxJSON refWrite "*v2_3.Document" doc =
      Return (writeSpdx refWrite (Some "{}")).
Proof.
  apply (proj1 (newDocument_conversions string string refWrite "*v2_3.Document"
                  (ISpdx (Some "{}"))) (Some "{}")).
  reflexivity.
Defined.

Lemma NewDocumentFromSpdxJSON_round_trip_witness :
  exists doc,
    NewDocumentFromSpdxJSON refRead "*v2_3.Document" "{}" = (Some doc, None) /\
    ToSpdxDocument (libError := string) "*v2_3.Document" doc =
      Return (Some "{}", None) /\
    ToSpdxJSON refWrite "*v2_3.Document" doc = Return ("{}", None).
Proof.
  apply (proj2 (NewDocumentFromSpdxJSON_round_trip string string refRead refWrite
                  "*v2_3.Document" "{}")).
  reflexivity.
Defined.

Lemma conversions_panic_witness :
  ToSpdxDocument (spdxDocument := string) (libError := string) "*v2_3.Document"
    {| docType := StandardTypeNone; document := INil |} =
    Return (None, Some (ConversionNotSupported "SPDX document" "none")) /\
  ToSpdxJSON refWrite "*v2_3.Document"
    {| docType := StandardTypeNone; document := INil |} =
    Return ("", Some (ConversionNotSupported "SPDX JSON" "none")).
Proof.
  apply (proj2 (proj2 (conversions_panic string string refWrite "*v2_3.Document"
                         {| docType := StandardTypeNone; document := INil |}))).
  discriminate.
Defined.

End MoreExamples.
